(** * Name producers of the enumeration engine ([enum/brute.go])

    A shallow embedding of the three [FQDNManager] implementations of
    [enum/brute.go]: [BruteManager] (word list expansion),
    [AlterationsManager] (rule based alterations) and [GuessManager]
    (names sampled from a Markov model), followed by the properties of
    their [InputName] / [OutputNames] / [Stop] methods.

    Go values are embedded as follows.
    - [int] is [Z].  Every counter of this file is compared with a bound
      before it is incremented ([count < num], [wordlistIdx < len]), so no
      increment can wrap around and the arithmetic is written without it.
    - A [*requests.DNSRequest] argument is an [option DNSRequest] ([None]
      for [nil]); a pointer stored in a queue is the request itself.
    - A method with a pointer receiver takes the receiver's state and
      returns the new state.
    - A run-time panic and a loop that does not end are results of type
      [outcome]; loops take a [fuel] argument.
    - The mutexes are not embedded: every method is taken as one atomic
      step. *)

From Stdlib Require Import ZArith Lia Ascii String.
From stdpp Require Import base tactics option list sets gmap strings.

Local Open Scope Z_scope.

(** ** Results of a call *)

Inductive panic : Type :=
  | NilDereference
  | IndexOutOfRange.

Inductive outcome (A : Type) : Type :=
  | Done (a : A)
  | Panic (p : panic)
  | OutOfFuel.

Arguments Done {A} a.
Arguments Panic {A} p.
Arguments OutOfFuel {A}.

(** Sequencing of calls that can fail, with stdpp's [x ← m; k]. *)
#[global] Instance outcome_ret : MRet outcome := λ A a, Done a.

#[global] Instance outcome_bind : MBind outcome := λ A B k m,
  match m with
  | Done a => k a
  | Panic p => Panic p
  | OutOfFuel => OutOfFuel
  end.

(** ** Package [requests] *)

Module requests.

(** Modelled from the spec: the provenance categories of package
    [requests], which is not part of the sources at hand: "one of a small
    closed set: brute-force, alteration, guess, plus categories produced
    by other collaborators". *)
Inductive Tag : Type :=
  | BRUTE
  | ALT
  | GUESS
  | OtherTag (label : string).

(** Modelled from the spec: the kinds of DNS evidence that [InputName]
    tells apart, "an alias (CNAME)" and "a direct address record". *)
Inductive RecordKind : Type :=
  | AddressRecord
  | AliasRecord
  | OtherRecord.

Record DNSAnswer : Type := {
  AnswerName : string;
  AnswerKind : RecordKind;
  AnswerData : string
}.

Record DNSRequest : Type := {
  Name : string;
  Domain : string;
  Records : list DNSAnswer;
  Tag_ : Tag;
  Source : string
}.

End requests.

Export requests.

(** ** Package [queue] *)

Module queue.

(** Modelled from the spec: the FIFO queue primitive of package [queue]
    ("append, pop-next-or-empty, length"); the oldest element is the head
    of the list. *)
Definition Queue (A : Type) : Type := list A.

Definition New {A : Type} : Queue A := [].

Definition Append {A : Type} (q : Queue A) (x : A) : Queue A := q ++ [x].

Definition Next {A : Type} (q : Queue A) : option (A * Queue A) :=
  match q with
  | [] => None
  | x :: q' => Some (x, q')
  end.

Definition Len {A : Type} (q : Queue A) : Z := Z.of_nat (length q).

End queue.

(** ** Package [stringfilter] *)

Module stringfilter.

(** Modelled from the spec: the duplicate-name filter primitive, which
    "reports and records whether a name has been seen before". *)
Definition Filter : Type := gset string.

Definition NewStringFilter : Filter := ∅.

Definition Duplicate (f : Filter) (s : string) : bool * Filter :=
  (bool_decide (s ∈ f), {[s]} ∪ f).

End stringfilter.

(** ** Package [stringset] *)

Module stringset.

(** Modelled from the spec: the name-set primitive,
    "insertion-order-irrelevant deduplication of strings with bulk
    insert". *)
Definition Set_ : Type := gset string.

Definition New (elements : list string) : Set_ := list_to_set elements.

Definition InsertMany (s : Set_) (elements : list string) : Set_ :=
  s ∪ list_to_set elements.

Definition Len (s : Set_) : Z := Z.of_nat (size s).

End stringset.

(** Go leaves the order of [for name := range set] open.  The order is a
    parameter of the development: any enumeration of the members. *)
Class RangeOrder : Type := {
  rangeOrder : gset string → list string;
  rangeOrder_perm : ∀ X : gset string, rangeOrder X ≡ₚ elements X
}.

(** ** Package [config] and the enumeration *)

Module config.

(** The fields and methods of [config.Config] that [brute.go] reads. *)
Record Config : Type := {
  BruteForcing : bool;
  Alterations : bool;
  FlipNumbers : bool;
  AddNumbers : bool;
  FlipWords : bool;
  AddWords : bool;
  MinForWordFlip : Z;
  EditDistance : Z;
  Wordlist : list string;
  AltWordlist : list string;
  IsDomainInScope : string → bool;
  WhichDomain : string → string
}.

End config.

(** [Enumeration], with the configuration and the two record tests that
    [BruteManager.InputName] calls. *)
Record Enumeration : Type := {
  Config : config.Config;
  hasCNAMERecord : DNSRequest → bool;
  hasARecords : DNSRequest → bool
}.

(** [requests.SanitizeDNSRequest] rewrites the name and the domain of a
    request in place; its definition is outside [brute.go]. *)
Class Sanitizer : Type := {
  SanitizeDNSRequest : DNSRequest → DNSRequest
}.

(** The test [req == nil || req.Name == "" || req.Domain == ""] that opens
    every [InputName]. *)
Definition wellFormed (req : option DNSRequest) : option DNSRequest :=
  match req with
  | None => None
  | Some req =>
      if bool_decide (Name req = "") || bool_decide (Domain req = "")
      then None else Some req
  end.

(** ** [BruteManager] *)

Record BruteManager : Type := {
  brute_enum : Enumeration;
  brute_queue : queue.Queue DNSRequest;
  brute_filter : stringfilter.Filter;
  wordlistIdx : Z;
  curReq : option DNSRequest
}.

Definition NewBruteManager (e : Enumeration) : BruteManager :=
  {| brute_enum := e;
     brute_queue := queue.New;
     brute_filter := stringfilter.NewStringFilter;
     wordlistIdx := 0;
     curReq := None |}.

Module Brute.
Section Brute.

Context {sanitizer : Sanitizer}.

Definition withFilter (r : BruteManager) (f : stringfilter.Filter) : BruteManager :=
  {| brute_enum := brute_enum r;
     brute_queue := brute_queue r;
     brute_filter := f;
     wordlistIdx := wordlistIdx r;
     curReq := curReq r |}.

Definition withQueue (r : BruteManager) (q : queue.Queue DNSRequest) : BruteManager :=
  {| brute_enum := brute_enum r;
     brute_queue := q;
     brute_filter := brute_filter r;
     wordlistIdx := wordlistIdx r;
     curReq := curReq r |}.

Definition withCursor (r : BruteManager) (cur : option DNSRequest) (idx : Z) : BruteManager :=
  {| brute_enum := brute_enum r;
     brute_queue := brute_queue r;
     brute_filter := brute_filter r;
     wordlistIdx := idx;
     curReq := cur |}.

(** Why a call of [InputName] ended. *)
Inductive verdict : Type :=
  | Malformed
  | OutOfScope
  | Disabled
  | DuplicateName
  | BadRecords
  | Accepted.

(** [InputName], with the return statement that ended the call. *)
Definition InputName_verdict (r : BruteManager) (req : option DNSRequest)
  : BruteManager * verdict :=
  match wellFormed req with
  | None => (r, Malformed)
  | Some req =>
      let req := SanitizeDNSRequest req in
      let cfg := Config (brute_enum r) in
      if negb (config.IsDomainInScope cfg (Name req)) then (r, OutOfScope)
      else if negb (config.BruteForcing cfg) then (r, Disabled)
      else
        let '(dup, f) := stringfilter.Duplicate (brute_filter r) (Name req) in
        let r := withFilter r f in
        if dup then (r, DuplicateName)
        else if bool_decide (0 < Z.of_nat (length (Records req)))
                && (hasCNAMERecord (brute_enum r) req
                    || negb (hasARecords (brute_enum r) req))
        then (r, BadRecords)
        else (withQueue r (queue.Append (brute_queue r) req), Accepted)
  end.

Definition InputName (r : BruteManager) (req : option DNSRequest) : BruteManager :=
  fst (InputName_verdict r req).

(** The request built at lines 102-107. *)
Definition bruteRequest (word : string) (cur : DNSRequest) : DNSRequest :=
  {| Name := word +:+ "." +:+ Name cur;
     Domain := Domain cur;
     Records := [];
     Tag_ := BRUTE;
     Source := "Brute Forcing" |}.

(** The labelled loop of [OutputNames]: [outerLoop] is an iteration of
    [loop: for], [innerLoop] an iteration of the [for] inside it.  Every
    iteration costs one unit of fuel. *)
Fixpoint outerLoop (fuel : nat) (r : BruteManager) (num count : Z)
    (results : list DNSRequest) {struct fuel}
  : outcome (list DNSRequest * BruteManager) :=
  match fuel with
  | O => OutOfFuel
  | S fuel =>
      match curReq r with
      | None =>
          match queue.Next (brute_queue r) with
          | None => Done (results, r)
          | Some (element, q) =>
              innerLoop fuel (withCursor (withQueue r q) (Some element) (wordlistIdx r))
                num count results
          end
      | Some _ => innerLoop fuel r num count results
      end
  end
with innerLoop (fuel : nat) (r : BruteManager) (num count : Z)
    (results : list DNSRequest) {struct fuel}
  : outcome (list DNSRequest * BruteManager) :=
  match fuel with
  | O => OutOfFuel
  | S fuel =>
      let wordlist := config.Wordlist (Config (brute_enum r)) in
      if bool_decide (num ≤ count) then Done (results, r)
      else if bool_decide (Z.of_nat (length wordlist) ≤ wordlistIdx r)
      then outerLoop fuel (withCursor r None 0) num count results
      else if bool_decide (wordlistIdx r < 0) then Panic IndexOutOfRange
      else
        match wordlist !! Z.to_nat (wordlistIdx r) with
        | None => Panic IndexOutOfRange
        | Some word =>
            let r := withCursor r (curReq r) (wordlistIdx r + 1) in
            if bool_decide (word ≠ "")
            then
              match curReq r with
              | None => Panic NilDereference
              | Some cur =>
                  innerLoop fuel r num (count + 1) (results ++ [bruteRequest word cur])
              end
            else innerLoop fuel r num count results
        end
  end.

(** Iterations that the loop can need at most: for the current and for
    every queued base request one pass over the word list, the step that
    finds the list used up and the step that fetches the next request. *)
Definition loopBound (r : BruteManager) : nat :=
  (length (config.Wordlist (Config (brute_enum r))) + 2)
  * (length (brute_queue r) + 1) + 1.

Definition OutputNames_fuel (fuel : nat) (r : BruteManager) (num : Z)
  : outcome (list DNSRequest * BruteManager) :=
  if negb (config.BruteForcing (Config (brute_enum r))) then Done ([], r)
  else outerLoop fuel r num 0 [].

Definition OutputNames (r : BruteManager) (num : Z)
  : outcome (list DNSRequest * BruteManager) :=
  OutputNames_fuel (loopBound r) r num.

Definition Stop (r : BruteManager) : BruteManager :=
  {| brute_enum := brute_enum r;
     brute_queue := queue.New;
     brute_filter := stringfilter.NewStringFilter;
     wordlistIdx := 0;
     curReq := None |}.

(** *** The traversal that [OutputNames] is meant to perform

    These definitions follow the specification, not the code: the cross
    product of the accepted requests and the word list in wordlist-minor
    order, without the empty words. *)

Definition goodWords (wordlist : list string) : list string :=
  filter (λ word, word ≠ ""%string) wordlist.

Definition expansions (wordlist : list string) (base : DNSRequest) : list DNSRequest :=
  (λ word, bruteRequest word base) <$> goodWords wordlist.

Definition crossProduct (wordlist : list string) (bases : list DNSRequest)
  : list DNSRequest :=
  bases ≫= expansions wordlist.

(** What is left of the traversal at a cursor: the rest of the word list
    for the current request, then the whole list for every queued one. *)
Definition pending (r : BruteManager) : list DNSRequest :=
  let wordlist := config.Wordlist (Config (brute_enum r)) in
  match curReq r with
  | None => []
  | Some cur => expansions (drop (Z.to_nat (wordlistIdx r)) wordlist) cur
  end ++ crossProduct wordlist (brute_queue r).

(** The cursor invariant. *)
Definition cursorOk (r : BruteManager) : Prop :=
  0 ≤ wordlistIdx r ≤ Z.of_nat (length (config.Wordlist (Config (brute_enum r))))
  ∧ (curReq r = None → wordlistIdx r = 0).

(** Iterations left at an iteration of the inner and of the outer loop. *)
Definition innerCost (r : BruteManager) : nat :=
  let wordlist := config.Wordlist (Config (brute_enum r)) in
  (length wordlist - Z.to_nat (wordlistIdx r)) + 1
  + ((length wordlist + 2) * length (brute_queue r) + 1).

Definition outerCost (r : BruteManager) : nat :=
  let wordlist := config.Wordlist (Config (brute_enum r)) in
  match curReq r with
  | None => (length wordlist + 2) * length (brute_queue r) + 1
  | Some _ => S (innerCost r)
  end.

(** A run of the loop from [r] with [count] names in [results] ends after
    the next [num - count] names of the traversal; the cursor stays
    well-formed and nothing else of the manager changes. *)
Definition loopResult (r : BruteManager) (num count : Z) (results : list DNSRequest)
    (res : outcome (list DNSRequest * BruteManager)) : Prop :=
  ∃ r',
    res = Done (results ++ take (Z.to_nat (num - count)) (pending r), r')
    ∧ pending r' = drop (Z.to_nat (num - count)) (pending r)
    ∧ cursorOk r'
    ∧ brute_enum r' = brute_enum r
    ∧ brute_filter r' = brute_filter r.

End Brute.
End Brute.

(** ** Package [strings] *)

Module strings.

(** [strings.Split(s, sep)] of the Go library for a separator of one
    character: the pieces between the separators, one more than there
    are separators. *)
Fixpoint Split (s : string) (sep : Ascii.ascii) : list string :=
  match s with
  | EmptyString => [""%string]
  | String c s' =>
      if bool_decide (c = sep) then ""%string :: Split s' sep
      else
        match Split s' sep with
        | [] => [String c ""]
        | piece :: pieces => String c piece :: pieces
        end
  end.

End strings.

(** The test of lines 163 and 282: the name has no more labels than its
    domain. *)
Definition notBelowDomain (req : DNSRequest) : bool :=
  bool_decide (length (strings.Split (Name req) "."%char)
               ≤ length (strings.Split (Domain req) "."%char))%nat.

(** ** Package [alterations] *)

Module alts.

(** Modelled from the spec: the state of the alteration engine of package
    [alterations], "wordlist + tunable thresholds for word-flip minimum
    length and edit distance". *)
Record State : Type := {
  MinForWordFlip : Z;
  EditDistance : Z;
  Words : list string
}.

(** The constructor and the generators of the engine, which [brute.go]
    calls and does not define. *)
Class Engine : Type := {
  NewState : list string → State;
  FlipNumbers : State → string → list string;
  AppendNumbers : State → string → list string;
  FlipWords : State → string → list string;
  AddSuffixWord : State → string → list string;
  AddPrefixWord : State → string → list string;
  FuzzyLabelSearches : State → string → list string
}.

(** Modelled from the spec: the statistical sequence model, "[Train(name)],
    [TotalTrainings() -> int], [GenerateNames(count) -> sequence of
    names]".  Sampling returns the model as well, which carries the state
    of its random source; it is no training event. *)
Class MarkovModel (M : Type) : Type := {
  NewMarkovModel : Z → M;
  Train : M → string → M;
  AddSubdomain : M → string → M;
  TotalTrainings : M → Z;
  GenerateNames : M → Z → list string * M;
  GenerateNames_TotalTrainings :
    ∀ (m : M) (num : Z), TotalTrainings (GenerateNames m num).2 = TotalTrainings m
}.

End alts.

(** ** [AlterationsManager] *)

Record AlterationsManager : Type := {
  alt_enum : Enumeration;
  inQueue : queue.Queue DNSRequest;
  outQueue : queue.Queue DNSRequest;
  altState : alts.State
}.

Module Alterations.
Section Alterations.

Context {sanitizer : Sanitizer} {engine : alts.Engine} {order : RangeOrder}.

Definition NewAlterationsManager (e : Enumeration) : AlterationsManager :=
  let st := alts.NewState (config.AltWordlist (Config e)) in
  {| alt_enum := e;
     inQueue := queue.New;
     outQueue := queue.New;
     altState :=
       {| alts.MinForWordFlip := config.MinForWordFlip (Config e);
          alts.EditDistance := config.EditDistance (Config e);
          alts.Words := alts.Words st |} |}.

Definition withInQueue (r : AlterationsManager) (q : queue.Queue DNSRequest)
  : AlterationsManager :=
  {| alt_enum := alt_enum r;
     inQueue := q;
     outQueue := outQueue r;
     altState := altState r |}.

Definition withOutQueue (r : AlterationsManager) (q : queue.Queue DNSRequest)
  : AlterationsManager :=
  {| alt_enum := alt_enum r;
     inQueue := inQueue r;
     outQueue := q;
     altState := altState r |}.

Definition InputName (r : AlterationsManager) (req : option DNSRequest)
  : AlterationsManager :=
  match wellFormed req with
  | None => r
  | Some req =>
      let req := SanitizeDNSRequest req in
      let cfg := Config (alt_enum r) in
      if negb (config.IsDomainInScope cfg (Name req)) then r
      else if negb (config.Alterations cfg) then r
      else if notBelowDomain req then r
      else withInQueue r (queue.Append (inQueue r) req)
  end.

Definition altRequest (name : string) (req : DNSRequest) : DNSRequest :=
  {| Name := name;
     Domain := Domain req;
     Records := [];
     Tag_ := ALT;
     Source := "Alterations" |}.

(** The names collected at lines 205-229. *)
Definition altNames (cfg : config.Config) (st : alts.State) (name : string)
  : stringset.Set_ :=
  let names := stringset.New [] in
  let names :=
    if config.FlipNumbers cfg
    then stringset.InsertMany names (alts.FlipNumbers st name) else names in
  let names :=
    if config.AddNumbers cfg
    then stringset.InsertMany names (alts.AppendNumbers st name) else names in
  let names :=
    if config.FlipWords cfg
    then stringset.InsertMany names (alts.FlipWords st name) else names in
  let names :=
    if config.AddWords cfg
    then stringset.InsertMany
           (stringset.InsertMany names (alts.AddSuffixWord st name))
           (alts.AddPrefixWord st name)
    else names in
  if bool_decide (0 < config.EditDistance cfg)
  then stringset.InsertMany names (alts.FuzzyLabelSearches st name) else names.

(** The loop of lines 232-244 over the names in the order of [range]. *)
Fixpoint queueAlts (cfg : config.Config) (req : DNSRequest) (names : list string)
    (count : Z) (out : queue.Queue DNSRequest) : Z * queue.Queue DNSRequest :=
  match names with
  | [] => (count, out)
  | name :: names =>
      if negb (config.IsDomainInScope cfg name)
      then queueAlts cfg req names count out
      else queueAlts cfg req names (count + 1) (queue.Append out (altRequest name req))
  end.

Definition generateAlts (r : AlterationsManager) : Z * AlterationsManager :=
  match queue.Next (inQueue r) with
  | None => (0, r)
  | Some (req, q) =>
      let r := withInQueue r q in
      let cfg := Config (alt_enum r) in
      let names := altNames cfg (altState r) (Name req) in
      let '(count, out) := queueAlts cfg req (rangeOrder names) 0 (outQueue r) in
      (count, withOutQueue r out)
  end.

(** The loop of lines 178-182; [fuel] bounds the calls of [generateAlts]. *)
Fixpoint refill (fuel : nat) (r : AlterationsManager) (num : Z)
  : outcome AlterationsManager :=
  if bool_decide (queue.Len (outQueue r) < num)
  then
    match fuel with
    | O => OutOfFuel
    | S fuel =>
        let '(c, r) := generateAlts r in
        if bool_decide (c = 0) then Done r else refill fuel r num
    end
  else Done r.

(** The loop of lines 184-191, by recursion on the queue that it empties. *)
Fixpoint drain (q : queue.Queue DNSRequest) (num i : Z) (results : list DNSRequest)
  : list DNSRequest * queue.Queue DNSRequest :=
  if bool_decide (i < num)
  then
    match q with
    | [] => (results, q)
    | element :: q' => drain q' num (i + 1) (results ++ [element])
    end
  else (results, q).

Definition OutputNames_fuel (fuel : nat) (r : AlterationsManager) (num : Z)
  : outcome (list DNSRequest * AlterationsManager) :=
  if negb (config.Alterations (Config (alt_enum r))) then Done ([], r)
  else
    r ← refill fuel r num;
    let '(results, q) := drain (outQueue r) num 0 [] in
    Done (results, withOutQueue r q).

(** A call of [generateAlts] that queues a name has taken a request from
    the input queue, and a call on the empty queue ends the loop. *)
Definition OutputNames (r : AlterationsManager) (num : Z)
  : outcome (list DNSRequest * AlterationsManager) :=
  OutputNames_fuel (S (length (inQueue r))) r num.

Definition Stop (r : AlterationsManager) : AlterationsManager :=
  {| alt_enum := alt_enum r;
     inQueue := queue.New;
     outQueue := queue.New;
     altState := alts.NewState (config.AltWordlist (Config (alt_enum r))) |}.

(** The requests that one call of [generateAlts] queues for [req]: one
    for every collected name that is in scope. *)
Definition yield (cfg : config.Config) (req : DNSRequest) (names : list string)
  : list DNSRequest :=
  (λ name, altRequest name req)
    <$> filter (λ name, config.IsDomainInScope cfg name = true) names.

End Alterations.
End Alterations.

(** ** [GuessManager] *)

Record GuessManager (M : Type) : Type := {
  guess_enum : Enumeration;
  markovModel : M;
  ttLastOutput : Z
}.

Arguments guess_enum {M} _.
Arguments markovModel {M} _.
Arguments ttLastOutput {M} _.

Module Guess.
Section Guess.

Context {sanitizer : Sanitizer} {order : RangeOrder}
        {M : Type} {model : alts.MarkovModel M}.

Definition NewGuessManager (e : Enumeration) : GuessManager M :=
  {| guess_enum := e;
     markovModel := alts.NewMarkovModel 3;
     ttLastOutput := 0 |}.

Definition withModel (r : GuessManager M) (m : M) : GuessManager M :=
  {| guess_enum := guess_enum r;
     markovModel := m;
     ttLastOutput := ttLastOutput r |}.

Definition withLastOutput (r : GuessManager M) (tt : Z) : GuessManager M :=
  {| guess_enum := guess_enum r;
     markovModel := markovModel r;
     ttLastOutput := tt |}.

Definition InputName (r : GuessManager M) (req : option DNSRequest) : GuessManager M :=
  match wellFormed req with
  | None => r
  | Some req =>
      let req := SanitizeDNSRequest req in
      let cfg := Config (guess_enum r) in
      if negb (config.IsDomainInScope cfg (Name req)) then r
      else if negb (config.Alterations cfg) then r
      else if notBelowDomain req then r
      else withModel r (alts.Train (markovModel r) (Name req))
  end.

Definition guessRequest (name domain : string) : DNSRequest :=
  {| Name := name;
     Domain := domain;
     Records := [];
     Tag_ := GUESS;
     Source := "Markov Model" |}.

(** The loop of lines 310-312; [fuel] bounds the sampling rounds. *)
Fixpoint topUp (fuel : nat) (m : M) (num : Z) (guesses : stringset.Set_)
  : outcome (stringset.Set_ * M) :=
  if bool_decide (stringset.Len guesses < num)
  then
    match fuel with
    | O => OutOfFuel
    | S fuel =>
        let '(names, m) := alts.GenerateNames m num in
        topUp fuel m num (stringset.InsertMany guesses names)
    end
  else Done (guesses, m).

(** The loop of lines 315-332 over the guesses in the order of [range]. *)
Fixpoint collect (cfg : config.Config) (names : list string) (num count : Z)
    (results : list DNSRequest) : list DNSRequest :=
  match names with
  | [] => results
  | name :: names =>
      if bool_decide (num ≤ count) then results
      else
        let domain := config.WhichDomain cfg name in
        if bool_decide (domain = "") || bool_decide (name = "")
        then collect cfg names num count results
        else collect cfg names num (count + 1) (results ++ [guessRequest name domain])
  end.

Definition OutputNames (fuel : nat) (r : GuessManager M) (num : Z)
  : outcome (list DNSRequest * GuessManager M) :=
  let cfg := Config (guess_enum r) in
  if negb (config.Alterations cfg) then Done ([], r)
  else
    let last := ttLastOutput r in
    if bool_decide (alts.TotalTrainings (markovModel r) < 50)
       || bool_decide (alts.TotalTrainings (markovModel r) ≤ last)
    then Done ([], r)
    else
      let r := withLastOutput r (alts.TotalTrainings (markovModel r)) in
      let '(names, m) := alts.GenerateNames (markovModel r) (num * 2) in
      '(guesses, m) ← topUp fuel m num (stringset.New names);
      Done (collect cfg (rangeOrder guesses) num 0 [], withModel r m).

Definition AddSubdomain (r : GuessManager M) (sub : string) : GuessManager M :=
  withModel r (alts.AddSubdomain (markovModel r) sub).

Definition Stop (r : GuessManager M) : GuessManager M :=
  withModel r (alts.NewMarkovModel 3).

(** The requests for the sampled names that resolve to a domain: the
    names without a domain and the empty name are left out. *)
Definition resolved (cfg : config.Config) (names : list string) : list DNSRequest :=
  (λ name, guessRequest name (config.WhichDomain cfg name))
    <$> filter (λ name, config.WhichDomain cfg name ≠ ""%string ∧ name ≠ ""%string) names.

End Guess.
End Guess.

(** ** The [FQDNManager] interface

    [OutputNames] takes the fuel granted to the loops of the call; the two
    managers whose loops are bounded by their queues ignore it. *)

Class FQDNManager (T : Type) : Type := {
  InputName : T → option DNSRequest → T;
  OutputNames : nat → T → Z → outcome (list DNSRequest * T);
  Stop : T → T
}.

#[global] Instance BruteManager_FQDNManager {sanitizer : Sanitizer}
  : FQDNManager BruteManager := {|
  InputName := Brute.InputName;
  OutputNames := λ _, Brute.OutputNames;
  Stop := Brute.Stop
|}.

#[global] Instance AlterationsManager_FQDNManager
    {sanitizer : Sanitizer} {engine : alts.Engine} {order : RangeOrder}
  : FQDNManager AlterationsManager := {|
  InputName := Alterations.InputName;
  OutputNames := λ _, Alterations.OutputNames;
  Stop := Alterations.Stop
|}.

#[global] Instance GuessManager_FQDNManager {sanitizer : Sanitizer} {order : RangeOrder}
    {M : Type} {model : alts.MarkovModel M} : FQDNManager (GuessManager M) := {|
  InputName := Guess.InputName;
  OutputNames := Guess.OutputNames;
  Stop := Guess.Stop
|}.

(** A call of the interface by the orchestrator. *)
Inductive call : Type :=
  | CallInputName (req : option DNSRequest)
  | CallOutputNames (num : Z)
  | CallStop.

(** A sequence of calls on one manager: the results of the [OutputNames]
    calls in order, and the manager after the last call. *)
Fixpoint run {T : Type} {manager : FQDNManager T} (fuel : nat) (calls : list call) (r : T)
  : outcome (list (list DNSRequest) * T) :=
  match calls with
  | [] => Done ([], r)
  | CallInputName req :: calls => run fuel calls (InputName r req)
  | CallOutputNames num :: calls =>
      '(names, r) ← OutputNames fuel r num;
      '(rest, r) ← run fuel calls r;
      Done (names :: rest, r)
  | CallStop :: calls => run fuel calls (Stop r)
  end.

(** The sum of the batch sizes of a sequence of [OutputNames] calls. *)
Definition sumZ (ns : list Z) : Z := foldr Z.add 0 ns.

(** ** A concrete enumeration

    The collaborators that [brute.go] calls and does not define, made
    concrete for the examples of this file. *)

Module Example.

(** Requests that are already clean: sanitizing changes nothing. *)
Definition sanitizer : Sanitizer := {| SanitizeDNSRequest := λ req, req |}.

(** [range] in the order of stdpp's [elements]. *)
Definition order : RangeOrder :=
  {| rangeOrder := elements;
     rangeOrder_perm := λ X, reflexivity (elements X) |}.

Definition hasSuffix (suffix name : string) : bool :=
  let m := String.length suffix in
  let n := String.length name in
  (m <=? n)%nat && String.eqb (String.substring (n - m) m name) suffix.

(** One domain, [example.com], is in scope. *)
Definition inScope (name : string) : bool :=
  String.eqb name "example.com" || hasSuffix ".example.com" name.

Definition whichDomain (name : string) : string :=
  if inScope name then "example.com"%string else ""%string.

(** Brute forcing and alterations are switched on, every alteration rule
    is switched off. *)
Definition cfg : config.Config :=
  {| config.BruteForcing := true;
     config.Alterations := true;
     config.FlipNumbers := false;
     config.AddNumbers := false;
     config.FlipWords := false;
     config.AddWords := false;
     config.MinForWordFlip := 2;
     config.EditDistance := 0;
     config.Wordlist := ["www"; ""; "mail"]%string;
     config.AltWordlist := [];
     config.IsDomainInScope := inScope;
     config.WhichDomain := whichDomain |}.

(** Modelled from the spec: the record tests of [Enumeration], whose
    definitions are in another file of the package: the evidence
    "indicates the name is an alias (CNAME)", the name "has [a] direct
    address record". *)
Definition hasAlias (req : DNSRequest) : bool :=
  existsb (λ a, match AnswerKind a with AliasRecord => true | _ => false end)
    (Records req).

Definition hasAddress (req : DNSRequest) : bool :=
  existsb (λ a, match AnswerKind a with AddressRecord => true | _ => false end)
    (Records req).

Definition enum : Enumeration :=
  {| Config := cfg; hasCNAMERecord := hasAlias; hasARecords := hasAddress |}.

(** A request as the resolver hands it to the managers. *)
Definition request (name : string) (records : list DNSAnswer) : DNSRequest :=
  {| Name := name;
     Domain := "example.com";
     Records := records;
     Tag_ := OtherTag "dns";
     Source := "DNS" |}.

Definition aliasOf (name target : string) : DNSAnswer :=
  {| AnswerName := name; AnswerKind := AliasRecord; AnswerData := target |}.

Definition addressOf (name address : string) : DNSAnswer :=
  {| AnswerName := name; AnswerKind := AddressRecord; AnswerData := address |}.

(** An alteration engine without rules: every generator is empty. *)
Definition engine : alts.Engine :=
  {| alts.NewState := λ wordlist,
       {| alts.MinForWordFlip := 3; alts.EditDistance := 1; alts.Words := wordlist |};
     alts.FlipNumbers := λ _ _, [];
     alts.AppendNumbers := λ _ _, [];
     alts.FlipWords := λ _ _, [];
     alts.AddSuffixWord := λ _ _, [];
     alts.AddPrefixWord := λ _ _, [];
     alts.FuzzyLabelSearches := λ _ _, [] |}.

(** A sequence model that has learnt its training names by heart: it
    samples the names it was trained with, oldest first. *)
Definition model : alts.MarkovModel (list string) :=
  {| alts.NewMarkovModel := λ _, [];
     alts.Train := λ m name, m ++ [name];
     alts.AddSubdomain := λ m _, m;
     alts.TotalTrainings := λ m, Z.of_nat (length m);
     alts.GenerateNames := λ m num, (take (Z.to_nat num) m, m);
     alts.GenerateNames_TotalTrainings := λ _ _, eq_refl |}.

(** Two names of the domain, without records, and the first of them
    with the alias record of an earlier resolution. *)
Definition a : DNSRequest := request "a.example.com" [].

Definition b : DNSRequest := request "b.example.com" [].

Definition aliasA : DNSRequest :=
  request "a.example.com" [aliasOf "a.example.com" "cdn.example.net"].

(** A [BruteManager] that has returned [www.a.example.com]: its cursor
    stands on the empty entry of the word list. *)
Definition atEmptyWord : BruteManager :=
  {| brute_enum := enum;
     brute_queue := [b];
     brute_filter := {[ "a.example.com"%string; "b.example.com"%string ]};
     wordlistIdx := 1;
     curReq := Some a |}.

(** A [GuessManager] whose model has seen one name [k] times. *)
Definition trained (k : nat) (last : Z) : GuessManager (list string) :=
  {| guess_enum := enum;
     markovModel := replicate k "a.example.com"%string;
     ttLastOutput := last |}.

(** A [GuessManager] whose model samples a name outside the scope, the
    empty name and a name of the domain. *)
Definition mixed : GuessManager (list string) :=
  {| guess_enum := enum;
     markovModel := ["x.other.org"; ""]%string ++ replicate 50 "a.example.com"%string;
     ttLastOutput := 0 |}.

(** The [GuessManager] of this enumeration behind the interface. *)
Definition guessManager : FQDNManager (GuessManager (list string)) :=
  GuessManager_FQDNManager (sanitizer := sanitizer) (order := order) (model := model).

End Example.

(** ** The requests that a [BruteManager] has accepted *)

Module History.
Section History.

Context {sanitizer : Sanitizer}.

(** The requests that the [InputName] calls of a sequence of calls append
    to the queue, in the order of the calls; the calls start at [r]. *)
Fixpoint accepted (calls : list call) (r : BruteManager) : list DNSRequest :=
  match calls with
  | [] => []
  | CallInputName req :: calls =>
      let '(r', v) := Brute.InputName_verdict r req in
      match req, v with
      | Some req, Brute.Accepted => SanitizeDNSRequest req :: accepted calls r'
      | _, _ => accepted calls r'
      end
  | CallOutputNames num :: calls =>
      match Brute.OutputNames r num with
      | Done (_, r') => accepted calls r'
      | _ => []
      end
  | CallStop :: calls => accepted calls (Brute.Stop r)
  end.

(** A request that [InputName] lets through: its name is in scope, and its
    records, if it has any, hold an address and no alias. *)
Definition validBase (e : Enumeration) (req : DNSRequest) : Prop :=
  config.IsDomainInScope (Config e) (Name req) = true
  ∧ (Records req = [] ∨ (hasCNAMERecord e req = false ∧ hasARecords e req = true)).

End History.
End History.

(** ** Enumerations with other settings *)

Module Offline.

(** The configuration of [Example] with brute forcing and alterations
    switched off. *)
Definition cfg : config.Config :=
  {| config.BruteForcing := false;
     config.Alterations := false;
     config.FlipNumbers := true;
     config.AddNumbers := true;
     config.FlipWords := true;
     config.AddWords := true;
     config.MinForWordFlip := 2;
     config.EditDistance := 1;
     config.Wordlist := ["www"; ""; "mail"]%string;
     config.AltWordlist := [];
     config.IsDomainInScope := Example.inScope;
     config.WhichDomain := Example.whichDomain |}.

Definition enum : Enumeration :=
  {| Config := cfg;
     hasCNAMERecord := Example.hasAlias;
     hasARecords := Example.hasAddress |}.

End Offline.

Module Overlap.

(** An engine two of whose rules give the same name, and a third a name
    outside the scope. *)
Definition engine : alts.Engine :=
  {| alts.NewState := λ wordlist,
       {| alts.MinForWordFlip := 3; alts.EditDistance := 1; alts.Words := wordlist |};
     alts.FlipNumbers := λ _ name, ["0" +:+ name; "1" +:+ name]%string;
     alts.AppendNumbers := λ _ name, ["1" +:+ name; "2" +:+ name]%string;
     alts.FlipWords := λ _ _, ["x.other.org"%string];
     alts.AddSuffixWord := λ _ _, [];
     alts.AddPrefixWord := λ _ _, [];
     alts.FuzzyLabelSearches := λ _ _, [] |}.

(** The configuration of [Example] with the first three rules switched on. *)
Definition cfg : config.Config :=
  {| config.BruteForcing := true;
     config.Alterations := true;
     config.FlipNumbers := true;
     config.AddNumbers := true;
     config.FlipWords := true;
     config.AddWords := false;
     config.MinForWordFlip := 2;
     config.EditDistance := 0;
     config.Wordlist := ["www"; ""; "mail"]%string;
     config.AltWordlist := [];
     config.IsDomainInScope := Example.inScope;
     config.WhichDomain := Example.whichDomain |}.

Definition enum : Enumeration :=
  {| Config := cfg;
     hasCNAMERecord := Example.hasAlias;
     hasARecords := Example.hasAddress |}.

End Overlap.

(** * Properties *)

(** ** The loop of [BruteManager.OutputNames] *)

Section BruteLoop.

Context {sanitizer : Sanitizer}.
Implicit Types (r : BruteManager) (num count : Z) (results : list DNSRequest).

Lemma expansions_nil base : Brute.expansions [] base = [].
Proof. reflexivity. Qed.

Lemma expansions_cons word wordlist base :
  Brute.expansions (word :: wordlist) base =
    if bool_decide (word ≠ ""%string)
    then Brute.bruteRequest word base :: Brute.expansions wordlist base
    else Brute.expansions wordlist base.
Proof.
  unfold Brute.expansions, Brute.goodWords. rewrite filter_cons.
  case_bool_decide; case_decide; done.
Qed.

Lemma pending_fetch r element q :
  curReq r = None → wordlistIdx r = 0 → brute_queue r = element :: q →
  Brute.pending (Brute.withCursor (Brute.withQueue r q) (Some element) (wordlistIdx r))
  = Brute.pending r.
Proof.
  intros Hcur Hidx Hq. unfold Brute.pending, Brute.crossProduct.
  rewrite Hcur, Hq, bind_cons. cbn. by rewrite Hidx.
Qed.

Lemma pending_exhausted r cur :
  curReq r = Some cur →
  Z.of_nat (length (config.Wordlist (Config (brute_enum r)))) ≤ wordlistIdx r →
  Brute.pending (Brute.withCursor r None 0) = Brute.pending r.
Proof.
  intros Hcur Hidx. unfold Brute.pending. cbn. rewrite Hcur.
  rewrite drop_ge by lia. by rewrite expansions_nil.
Qed.

Lemma pending_word r cur word :
  curReq r = Some cur → 0 ≤ wordlistIdx r →
  config.Wordlist (Config (brute_enum r)) !! Z.to_nat (wordlistIdx r) = Some word →
  Brute.pending r =
    (if bool_decide (word ≠ ""%string) then [Brute.bruteRequest word cur] else [])
    ++ Brute.pending (Brute.withCursor r (curReq r) (wordlistIdx r + 1)).
Proof.
  intros Hcur Hidx Hword. unfold Brute.pending. cbn. rewrite Hcur.
  rewrite (drop_S _ _ _ Hword), expansions_cons.
  replace (Z.to_nat (wordlistIdx r + 1)) with (S (Z.to_nat (wordlistIdx r))) by lia.
  by case_bool_decide.
Qed.

Lemma outerLoop_S fuel r num count results :
  Brute.outerLoop (S fuel) r num count results =
    match curReq r with
    | None =>
        match queue.Next (brute_queue r) with
        | None => Done (results, r)
        | Some (element, q) =>
            Brute.innerLoop fuel
              (Brute.withCursor (Brute.withQueue r q) (Some element) (wordlistIdx r))
              num count results
        end
    | Some _ => Brute.innerLoop fuel r num count results
    end.
Proof. reflexivity. Qed.

Lemma innerLoop_S fuel r num count results :
  Brute.innerLoop (S fuel) r num count results =
    let wordlist := config.Wordlist (Config (brute_enum r)) in
    if bool_decide (num ≤ count) then Done (results, r)
    else if bool_decide (Z.of_nat (length wordlist) ≤ wordlistIdx r)
    then Brute.outerLoop fuel (Brute.withCursor r None 0) num count results
    else if bool_decide (wordlistIdx r < 0) then Panic IndexOutOfRange
    else
      match wordlist !! Z.to_nat (wordlistIdx r) with
      | None => Panic IndexOutOfRange
      | Some word =>
          let r := Brute.withCursor r (curReq r) (wordlistIdx r + 1) in
          if bool_decide (word ≠ ""%string)
          then
            match curReq r with
            | None => Panic NilDereference
            | Some cur =>
                Brute.innerLoop fuel r num (count + 1)
                  (results ++ [Brute.bruteRequest word cur])
            end
          else Brute.innerLoop fuel r num count results
      end.
Proof. reflexivity. Qed.

Lemma loops_result fuel :
  (∀ r num count results,
      Brute.cursorOk r → (Brute.outerCost r ≤ fuel)%nat →
      Brute.loopResult r num count results (Brute.outerLoop fuel r num count results))
  ∧ (∀ r cur num count results,
      Brute.cursorOk r → curReq r = Some cur → (Brute.innerCost r ≤ fuel)%nat →
      Brute.loopResult r num count results (Brute.innerLoop fuel r num count results)).
Proof.
  unfold Brute.loopResult.
  induction fuel as [|fuel [IHouter IHinner]].
  { split.
    - intros r ???? Hcost. unfold Brute.outerCost, Brute.innerCost in Hcost.
      destruct (curReq r); lia.
    - intros r ?????? Hcost. unfold Brute.innerCost in Hcost. lia. }
  split.
  - intros r num count results Hok Hcost. rewrite outerLoop_S.
    destruct (curReq r) as [cur|] eqn:Hcur.
    + apply (IHinner r cur); [done..|].
      unfold Brute.outerCost in Hcost. rewrite Hcur in Hcost. lia.
    + destruct (brute_queue r) as [|element q] eqn:Hq; unfold queue.Next.
      * exists r. unfold Brute.pending, Brute.crossProduct.
        rewrite Hcur, Hq. cbn. rewrite take_nil, drop_nil, app_nil_r. done.
      * destruct Hok as [Hrange Hzero]. specialize (Hzero Hcur).
        rewrite <- (pending_fetch r element q) by done.
        destruct (IHinner
                    (Brute.withCursor (Brute.withQueue r q) (Some element) (wordlistIdx r))
                    element num count results) as (r' & -> & ? & ? & ? & ?).
        -- split; cbn; [lia|done].
        -- done.
        -- unfold Brute.outerCost in Hcost. rewrite Hcur, Hq in Hcost.
           unfold Brute.innerCost. cbn in *. rewrite Hzero. lia.
        -- by exists r'.
  - intros r cur num count results Hok Hcur Hcost. rewrite innerLoop_S. cbv zeta.
    destruct Hok as [Hrange Hzero].
    case_bool_decide as Hcount.
    { exists r. replace (Z.to_nat (num - count)) with 0%nat by lia.
      rewrite take_0, drop_0, app_nil_r. done. }
    case_bool_decide as Hlen.
    { rewrite <- (pending_exhausted r cur) by done.
      destruct (IHouter (Brute.withCursor r None 0) num count results)
        as (r' & -> & ? & ? & ? & ?).
      - split; cbn; [lia|done].
      - unfold Brute.innerCost in Hcost. unfold Brute.outerCost. cbn. lia.
      - by exists r'. }
    case_bool_decide as Hneg; [lia|].
    destruct (config.Wordlist (Config (brute_enum r)) !! Z.to_nat (wordlistIdx r))
      as [word|] eqn:Hword.
    2:{ apply lookup_ge_None in Hword. lia. }
    rewrite (pending_word r cur word) by (done || lia).
    rewrite Hcur. cbn [curReq Brute.withCursor].
    assert (Hok' : Brute.cursorOk (Brute.withCursor r (Some cur) (wordlistIdx r + 1))).
    { split; cbn; [lia|done]. }
    assert (Hcost' : (Brute.innerCost (Brute.withCursor r (Some cur) (wordlistIdx r + 1))
                      ≤ fuel)%nat).
    { unfold Brute.innerCost in *. cbn. lia. }
    case_bool_decide as Hgood.
    + destruct (IHinner _ cur num (count + 1) (results ++ [Brute.bruteRequest word cur])
                  Hok' eq_refl Hcost') as (r' & -> & Hpend & ? & ? & ?).
      exists r'. replace (Z.to_nat (num - count)) with (S (Z.to_nat (num - (count + 1)))) by lia.
      cbn. rewrite <- app_assoc. done.
    + destruct (IHinner _ cur num count results Hok' eq_refl Hcost')
        as (r' & -> & Hpend & ? & ? & ?).
      exists r'. done.
Qed.

End BruteLoop.

(** ** Calls of the [BruteManager] *)

Section BruteCalls.

Context {sanitizer : Sanitizer}.
Implicit Types (r : BruteManager) (num count : Z) (results : list DNSRequest).

Lemma loops_mono fuel :
  (∀ fuel' r num count results x,
      (fuel ≤ fuel')%nat →
      Brute.outerLoop fuel r num count results = Done x →
      Brute.outerLoop fuel' r num count results = Done x)
  ∧ (∀ fuel' r num count results x,
      (fuel ≤ fuel')%nat →
      Brute.innerLoop fuel r num count results = Done x →
      Brute.innerLoop fuel' r num count results = Done x).
Proof.
  induction fuel as [|fuel [IHouter IHinner]]; [by split|].
  split; intros [|fuel'] r num count results x Hle; try lia.
  - rewrite !outerLoop_S.
    destruct (curReq r); [apply IHinner; lia|].
    destruct (queue.Next (brute_queue r)) as [[element q]|]; [|done].
    apply IHinner; lia.
  - rewrite !innerLoop_S. cbv zeta.
    repeat case_bool_decide; try done.
    + apply IHouter; lia.
    + destruct (_ !! _); [|done]. cbn [curReq Brute.withCursor].
      case_bool_decide; [|apply IHinner; lia].
      destruct (curReq r); [|done]. apply IHinner; lia.
Qed.

Lemma outerCost_loopBound r :
  0 ≤ wordlistIdx r → (Brute.outerCost r ≤ Brute.loopBound r)%nat.
Proof.
  intros Hidx. unfold Brute.outerCost, Brute.innerCost, Brute.loopBound.
  destruct (curReq r); lia.
Qed.

Lemma OutputNames_disabled r num :
  config.BruteForcing (Config (brute_enum r)) = false →
  Brute.OutputNames r num = Done ([], r).
Proof. intros Hoff. unfold Brute.OutputNames, Brute.OutputNames_fuel. by rewrite Hoff. Qed.

Lemma OutputNames_enabled r num :
  config.BruteForcing (Config (brute_enum r)) = true →
  Brute.cursorOk r →
  Brute.loopResult r num 0 [] (Brute.OutputNames r num).
Proof.
  intros Hon Hok. unfold Brute.OutputNames, Brute.OutputNames_fuel. rewrite Hon. cbn [negb].
  apply loops_result; [done|]. apply outerCost_loopBound, Hok.
Qed.

(** Whatever the flag, a call from a well-formed cursor returns, leaves
    the cursor well-formed and keeps the enumeration and the filter. *)
Lemma OutputNames_cursorOk r num :
  Brute.cursorOk r →
  ∃ names r',
    Brute.OutputNames r num = Done (names, r')
    ∧ Brute.cursorOk r'
    ∧ brute_enum r' = brute_enum r
    ∧ brute_filter r' = brute_filter r.
Proof.
  intros Hok.
  destruct (config.BruteForcing (Config (brute_enum r))) eqn:Hflag.
  - destruct (OutputNames_enabled r num Hflag Hok) as (r' & -> & _ & ? & ? & ?).
    by eexists _, r'.
  - rewrite OutputNames_disabled by done. by eexists _, r.
Qed.

Lemma InputName_verdict_cursor r req :
  let r' := (Brute.InputName_verdict r req).1 in
  brute_enum r' = brute_enum r
  ∧ wordlistIdx r' = wordlistIdx r
  ∧ curReq r' = curReq r.
Proof.
  unfold Brute.InputName_verdict.
  destruct (wellFormed req) as [req'|]; [|done]. cbn.
  repeat (case_match; try done).
Qed.

Lemma InputName_cursorOk r req : Brute.cursorOk r → Brute.cursorOk (Brute.InputName r req).
Proof.
  unfold Brute.cursorOk, Brute.InputName.
  destruct (InputName_verdict_cursor r req) as (-> & -> & ->). done.
Qed.

Lemma Stop_fresh r : Brute.Stop r = NewBruteManager (brute_enum r).
Proof. reflexivity. Qed.

Lemma New_cursorOk e : Brute.cursorOk (NewBruteManager e).
Proof. split; cbn; [lia|done]. Qed.

(** The queue after [InputName]: the request is appended when the call
    accepts it, and only then. *)
Lemma InputName_verdict_queue r req :
  brute_queue (Brute.InputName_verdict r req).1 =
    match req, (Brute.InputName_verdict r req).2 with
    | Some req, Brute.Accepted => brute_queue r ++ [SanitizeDNSRequest req]
    | _, _ => brute_queue r
    end.
Proof.
  unfold Brute.InputName_verdict, wellFormed.
  destruct req as [req|]; [|done].
  repeat (case_match; simplify_eq/=; try done).
Qed.

Lemma InputName_verdict_enabled r req :
  (Brute.InputName_verdict r req).2 = Brute.Accepted →
  config.BruteForcing (Config (brute_enum r)) = true.
Proof.
  unfold Brute.InputName_verdict.
  destruct (wellFormed req); [|done]. cbn.
  repeat (case_match; simplify_eq/=; try done).
  by destruct (config.BruteForcing _).
Qed.

End BruteCalls.

(** ** The traversal of the [BruteManager] *)

Section BruteTraversal.

Context {sanitizer : Sanitizer}.
Implicit Types (r : BruteManager) (num count : Z) (results : list DNSRequest).

Lemma run_cursorOk fuel calls r :
  Brute.cursorOk r →
  ∃ outs r',
    run fuel calls r = Done (outs, r')
    ∧ Brute.cursorOk r'
    ∧ brute_enum r' = brute_enum r.
Proof.
  revert r. induction calls as [|[req|num|] calls IH]; intros r Hok.
  - by exists [], r.
  - cbn [run InputName BruteManager_FQDNManager].
    destruct (IH (Brute.InputName r req)) as (outs & r' & -> & ? & Henum).
    { by apply InputName_cursorOk. }
    exists outs, r'. split_and!; [done..|]. rewrite Henum.
    apply (InputName_verdict_cursor r req).
  - cbn [run OutputNames BruteManager_FQDNManager].
    destruct (OutputNames_cursorOk r num Hok) as (names & r1 & -> & Hok1 & <- & _).
    destruct (IH r1 Hok1) as (outs & r' & Hrun & ? & ?).
    cbn. rewrite Hrun. cbn. by exists (names :: outs), r'.
  - cbn [run Stop BruteManager_FQDNManager].
    destruct (IH (Brute.Stop r)) as (outs & r' & -> & ? & Henum).
    { apply New_cursorOk. }
    by exists outs, r'.
Qed.

(** C10.  Cursor invariant of the [BruteManager]: in every state reached
    from [NewBruteManager] by [InputName], [OutputNames] and [Stop] calls
    (the calls all return), the word list index lies between 0 and the
    length of the word list, and it is 0 whenever [curReq] is nil. *)
Theorem cursor_invariant (e : Enumeration) (fuel : nat) (calls : list call) :
  ∃ outs r,
    run fuel calls (NewBruteManager e) = Done (outs, r)
    ∧ 0 ≤ wordlistIdx r ≤ Z.of_nat (length (config.Wordlist (Config e)))
    ∧ (curReq r = None → wordlistIdx r = 0).
Proof.
  destruct (run_cursorOk fuel calls (NewBruteManager e) (New_cursorOk e))
    as (outs & r & Hrun & [Hrange Hzero] & Henum).
  exists outs, r. rewrite Henum in Hrange. done.
Qed.

Lemma OutputNames_take r num :
  Brute.cursorOk r →
  (config.BruteForcing (Config (brute_enum r)) = false → Brute.pending r = []) →
  ∃ r',
    Brute.OutputNames r num = Done (take (Z.to_nat num) (Brute.pending r), r')
    ∧ Brute.pending r' = drop (Z.to_nat num) (Brute.pending r)
    ∧ Brute.cursorOk r'
    ∧ brute_enum r' = brute_enum r.
Proof.
  intros Hok Hoff.
  destruct (config.BruteForcing (Config (brute_enum r))) eqn:Hflag.
  - destruct (OutputNames_enabled r num Hflag Hok) as (r' & -> & Hpend & ? & ? & _).
    rewrite Z.sub_0_r in *. by exists r'.
  - rewrite OutputNames_disabled, Hoff by done.
    exists r. by rewrite Hoff, take_nil, drop_nil.
Qed.

Lemma pending_words r :
  Forall (λ x, ∃ word base,
              word ≠ ""%string
              ∧ word ∈ config.Wordlist (Config (brute_enum r))
              ∧ x = Brute.bruteRequest word base)
    (Brute.pending r).
Proof.
  assert (Hexp : ∀ words base,
             words ⊆ config.Wordlist (Config (brute_enum r)) →
             Forall (λ x, ∃ word base,
                         word ≠ ""%string
                         ∧ word ∈ config.Wordlist (Config (brute_enum r))
                         ∧ x = Brute.bruteRequest word base)
               (Brute.expansions words base)).
  { intros words base Hsub. unfold Brute.expansions, Brute.goodWords.
    apply Forall_fmap, Forall_forall. intros word [Hgood Hin]%list_elem_of_filter.
    exists word, base. split_and!; [done| |done]. by apply Hsub. }
  unfold Brute.pending. apply Forall_app. split.
  - destruct (curReq r); [|done]. apply Hexp.
    apply subseteq_drop.
  - unfold Brute.crossProduct. apply Forall_bind, Forall_forall.
    intros base _. by apply Hexp.
Qed.

Lemma OutputNames_skip r cur num :
  Brute.cursorOk r →
  config.BruteForcing (Config (brute_enum r)) = true →
  curReq r = Some cur →
  config.Wordlist (Config (brute_enum r)) !! Z.to_nat (wordlistIdx r) = Some ""%string →
  0 < num →
  Brute.OutputNames r num =
    Brute.OutputNames (Brute.withCursor r (Some cur) (wordlistIdx r + 1)) num.
Proof.
  intros [Hrange Hzero] Hflag Hcur Hword Hnum.
  apply lookup_lt_Some in Hword as Hlt.
  set (r1 := Brute.withCursor r (Some cur) (wordlistIdx r + 1)).
  assert (Hok1 : Brute.cursorOk r1) by (split; cbn; [lia|done]).
  unfold Brute.OutputNames, Brute.OutputNames_fuel. cbn [brute_enum r1 Brute.withCursor].
  rewrite Hflag. cbn [negb].
  replace (Brute.loopBound r1) with (Brute.loopBound r) by done.
  assert (Hbound : ∃ fuel, Brute.loopBound r = S (S fuel)
                           ∧ (Brute.innerCost r1 ≤ fuel)%nat) .
  { unfold Brute.loopBound, Brute.innerCost. cbn [brute_enum r1 Brute.withCursor
      wordlistIdx brute_queue].
    exists ((length (config.Wordlist (Config (brute_enum r))) + 2)
            * (length (brute_queue r) + 1) - 1)%nat.
    split; lia. }
  destruct Hbound as (fuel & -> & Hcost).
  rewrite !outerLoop_S, Hcur. cbn [curReq r1 Brute.withCursor].
  rewrite (innerLoop_S fuel r). cbv zeta.
  rewrite (bool_decide_eq_false_2 (num ≤ 0)) by lia.
  rewrite bool_decide_eq_false_2 by lia.
  rewrite bool_decide_eq_false_2 by lia.
  rewrite Hword, Hcur.
  rewrite (bool_decide_eq_false_2 (""%string ≠ ""%string)) by (intros Hne; by apply Hne).
  fold r1.
  destruct (proj2 (loops_result fuel) r1 cur num 0 [] Hok1 eq_refl Hcost)
    as (r' & Hdone & _).
  rewrite Hdone. symmetry.
  eapply (proj2 (loops_mono fuel)); [|exact Hdone]. lia.
Qed.

(** C7.  An empty word list entry is skipped by [OutputNames]: a call
    returns the next [num] pairings of the traversal with a non-empty
    word, whatever empty entries lie between them, and leaves the cursor
    behind the last of them; no returned name is built from an empty
    word; and a call whose cursor stands on an empty entry does what it
    would do with the index advanced by one, so the entry moves the index
    and uses none of the budget. *)
Theorem empty_words_skipped r num :
  Brute.cursorOk r →
  config.BruteForcing (Config (brute_enum r)) = true →
  (∃ r',
      Brute.OutputNames r num = Done (take (Z.to_nat num) (Brute.pending r), r')
      ∧ Brute.pending r' = drop (Z.to_nat num) (Brute.pending r))
  ∧ Forall (λ x, ∃ word base,
                word ≠ ""%string
                ∧ word ∈ config.Wordlist (Config (brute_enum r))
                ∧ x = Brute.bruteRequest word base)
      (take (Z.to_nat num) (Brute.pending r))
  ∧ (∀ cur,
        curReq r = Some cur →
        config.Wordlist (Config (brute_enum r)) !! Z.to_nat (wordlistIdx r)
          = Some ""%string →
        0 < num →
        Brute.OutputNames r num =
          Brute.OutputNames (Brute.withCursor r (Some cur) (wordlistIdx r + 1)) num).
Proof.
  intros Hok Hflag. split_and!.
  - destruct (OutputNames_take r num Hok) as (r' & ? & ? & _); [congruence|].
    by exists r'.
  - apply Forall_take, pending_words.
  - intros cur ???. by apply OutputNames_skip.
Qed.

End BruteTraversal.

(** ** Completeness of the expansion *)

Section BruteCompleteness.

Context {sanitizer : Sanitizer}.
Implicit Types (r : BruteManager) (wordlist : list string) (bases : list DNSRequest).

Lemma length_goodWords wordlist :
  length (Brute.goodWords wordlist) =
    (length wordlist - length (filter (λ word, word = ""%string) wordlist))%nat.
Proof.
  unfold Brute.goodWords.
  pose proof (length_filter (λ word, word = ""%string) wordlist) as Hle. revert Hle.
  induction wordlist as [|word wordlist IH]; [done|].
  rewrite !filter_cons. pose proof (length_filter (λ word, word = ""%string) wordlist).
  repeat case_decide; cbn [length]; try done; lia.
Qed.

Lemma length_expansions wordlist base :
  length (Brute.expansions wordlist base) = length (Brute.goodWords wordlist).
Proof. unfold Brute.expansions. apply length_fmap. Qed.

Lemma length_crossProduct wordlist bases :
  length (Brute.crossProduct wordlist bases) =
    (length (Brute.goodWords wordlist) * length bases)%nat.
Proof.
  unfold Brute.crossProduct. induction bases as [|base bases IH]; [cbn; lia|].
  rewrite bind_cons, length_app, IH, length_expansions. cbn [length]. lia.
Qed.

(** The place of a pairing in the traversal: the words of one base
    request are consecutive, in the order of the word list, and the base
    requests follow each other in the order of the queue. *)
Lemma crossProduct_lookup wordlist bases i j base word :
  bases !! i = Some base →
  Brute.goodWords wordlist !! j = Some word →
  Brute.crossProduct wordlist bases !! (i * length (Brute.goodWords wordlist) + j)%nat
    = Some (Brute.bruteRequest word base).
Proof.
  intros Hbase Hword. unfold Brute.crossProduct.
  revert i Hbase. induction bases as [|base' bases IH]; intros i Hbase; [done|].
  rewrite bind_cons. apply lookup_lt_Some in Hword as Hlt.
  destruct i as [|i]; cbn [lookup list_lookup] in Hbase.
  - simplify_eq. rewrite Nat.mul_0_l, Nat.add_0_l.
    rewrite lookup_app_l by (by rewrite length_expansions).
    unfold Brute.expansions. by rewrite list_lookup_fmap, Hword.
  - rewrite lookup_app_r by (rewrite length_expansions; lia).
    rewrite length_expansions, <- (IH i Hbase). f_equal. lia.
Qed.

Lemma foldl_InputName r reqs :
  let r' := foldl Brute.InputName r reqs in
  brute_enum r' = brute_enum r
  ∧ wordlistIdx r' = wordlistIdx r
  ∧ curReq r' = curReq r
  ∧ (config.BruteForcing (Config (brute_enum r)) = false →
     brute_queue r' = brute_queue r).
Proof.
  revert r. induction reqs as [|req reqs IH]; intros r; [done|].
  cbn [foldl]. destruct (IH (Brute.InputName r req)) as (-> & -> & -> & Hq).
  destruct (InputName_verdict_cursor r req) as (Henum & Hidx & Hcur).
  unfold Brute.InputName in *. rewrite Henum in Hq. split_and!; [done..|].
  intros Hoff. rewrite (Hq Hoff), InputName_verdict_queue.
  destruct req as [req|]; [|done].
  destruct (Brute.InputName_verdict r (Some req)).2 eqn:Hverdict; try done.
  apply InputName_verdict_enabled in Hverdict. congruence.
Qed.

Lemma sumZ_cons n ns : sumZ (n :: ns) = n + sumZ ns.
Proof. reflexivity. Qed.

Lemma sumZ_pos ns : Forall (λ n, 0 < n) ns → 0 ≤ sumZ ns.
Proof.
  induction 1 as [|n ns' Hn _ IH]; [done|]. rewrite sumZ_cons. lia.
Qed.

Lemma run_OutputNames fuel ns r :
  Brute.cursorOk r →
  (config.BruteForcing (Config (brute_enum r)) = false → Brute.pending r = []) →
  Forall (λ n, 0 < n) ns →
  ∃ outs r',
    run fuel (CallOutputNames <$> ns) r = Done (outs, r')
    ∧ concat outs = take (Z.to_nat (sumZ ns)) (Brute.pending r).
Proof.
  intros Hok Hoff Hns. revert r Hok Hoff.
  induction Hns as [|n ns Hn Hns IH]; intros r Hok Hoff.
  - by exists [], r.
  - cbn [fmap list_fmap run OutputNames BruteManager_FQDNManager].
    destruct (OutputNames_take r n Hok Hoff) as (r1 & -> & Hpend & Hok1 & Henum).
    destruct (IH r1 Hok1) as (outs & r' & Hrun & Hconcat).
    { rewrite Henum, Hpend. intros ->%Hoff. apply drop_nil. }
    fold (@fmap list _ Z call CallOutputNames ns). cbn. rewrite Hrun. cbn.
    exists (take (Z.to_nat n) (Brute.pending r) :: outs), r'. split; [done|].
    cbn [concat]. rewrite Hconcat, Hpend, take_take_drop. f_equal.
    pose proof (sumZ_pos ns Hns). unfold sumZ in *. cbn [foldr]. lia.
Qed.

(** C1.  Completeness of the expansion.  Let the queue hold the [B]
    requests accepted from a sequence of [InputName] calls on a new
    manager, and let the word list have [W] entries, [E] of them empty.
    [OutputNames] calls with positive batch sizes all return, and together
    they return a prefix of the cross product in wordlist-minor order, as
    long as the sum of the batch sizes.  Once the batch sizes sum up to
    [(W-E)*B], the calls have returned [(W-E)*B] requests, the whole cross
    product: the pairing of the [j]-th non-empty word with the [i]-th
    request stands at place [i*(W-E)+j], with the name
    [word + "." + name of the request]. *)
Theorem expansion_complete (e : Enumeration) (reqs : list (option DNSRequest))
    (ns : list Z) (fuel : nat) :
  let r0 := foldl Brute.InputName (NewBruteManager e) reqs in
  let wordlist := config.Wordlist (Config e) in
  let bases := brute_queue r0 in
  let W := length wordlist in
  let E := length (filter (λ word, word = ""%string) wordlist) in
  let B := length bases in
  Forall (λ n, 0 < n) ns →
  ∃ outs r',
    run fuel (CallOutputNames <$> ns) r0 = Done (outs, r')
    ∧ concat outs = take (Z.to_nat (sumZ ns)) (Brute.crossProduct wordlist bases)
    ∧ (Z.of_nat ((W - E) * B) ≤ sumZ ns →
       length (concat outs) = ((W - E) * B)%nat
       ∧ concat outs = Brute.crossProduct wordlist bases
       ∧ ∀ i j base word,
           bases !! i = Some base →
           Brute.goodWords wordlist !! j = Some word →
           concat outs !! (i * (W - E) + j)%nat = Some (Brute.bruteRequest word base)
           ∧ Name (Brute.bruteRequest word base) = word +:+ "." +:+ Name base).
Proof.
  intros r0 wordlist bases W E B Hns.
  destruct (foldl_InputName (NewBruteManager e) reqs) as (Henum & Hidx & Hcur & Hq).
  fold r0 in Henum, Hidx, Hcur, Hq. cbn in Henum, Hidx, Hcur, Hq.
  assert (Hpend : Brute.pending r0 = Brute.crossProduct wordlist bases).
  { unfold Brute.pending. by rewrite Hcur, Henum. }
  assert (Hlen : length (Brute.crossProduct wordlist bases) = ((W - E) * B)%nat).
  { rewrite length_crossProduct, length_goodWords. done. }
  destruct (run_OutputNames fuel ns r0) as (outs & r' & Hrun & Hconcat); [| |done|].
  { split; [rewrite Hidx, Henum; lia|done]. }
  { rewrite Henum. intros Hoff. rewrite Hpend. unfold bases. by rewrite (Hq Hoff). }
  rewrite Hpend in Hconcat.
  exists outs, r'. split_and!; [done..|]. intros Hsum.
  rewrite take_ge in Hconcat by lia. rewrite Hconcat. split_and!; [done..|].
  intros i j base word Hbase Hword. split; [|done].
  unfold W, E. rewrite <- length_goodWords. by apply crossProduct_lookup.
Qed.

End BruteCompleteness.

(** ** The duplicate filter of the [BruteManager] *)

Section BruteFilter.

Context {sanitizer : Sanitizer}.
Implicit Types (r : BruteManager) (s : string).

Lemma verdict_duplicate r req :
  (Brute.InputName_verdict r (Some req)).2 = Brute.DuplicateName →
  Name (SanitizeDNSRequest req) ∈ brute_filter r.
Proof.
  unfold Brute.InputName_verdict.
  destruct (wellFormed (Some req)) as [req'|] eqn:Hwf; [|done].
  assert (req' = req) as ->.
  { cbn in Hwf. by case_match; simplify_eq. }
  cbn. case_bool_decide as Hdup; [done|].
  repeat (case_match; simplify_eq/=; try done).
Qed.

(** A name in the filter after [InputName] was there before, or is the
    name of this request, which was accepted or discarded for its
    records. *)
Lemma InputName_verdict_filter r req s :
  s ∈ brute_filter (Brute.InputName_verdict r req).1 →
  s ∈ brute_filter r
  ∨ ∃ req',
      req = Some req'
      ∧ Name (SanitizeDNSRequest req') = s
      ∧ ((Brute.InputName_verdict r req).2 = Brute.Accepted
         ∨ (Brute.InputName_verdict r req).2 = Brute.BadRecords).
Proof.
  unfold Brute.InputName_verdict.
  destruct (wellFormed req) as [req'|] eqn:Hwf; [|by left].
  assert (req = Some req') as ->.
  { destruct req as [req|]; [|done]. cbn in Hwf. by case_match; simplify_eq. }
  cbn. destruct (bool_decide (Name (SanitizeDNSRequest req') ∈ brute_filter r)) eqn:Hdup.
  - apply bool_decide_eq_true_1 in Hdup.
    repeat (case_match; simplify_eq/=; try by left).
    all: intros Hin; left; apply elem_of_union in Hin as [Heq|Hin]; [|done].
    all: by apply elem_of_singleton in Heq as ->.
  - repeat (case_match; simplify_eq/=; try by left).
    all: intros [->%elem_of_singleton|Hin]%elem_of_union; [|by left]; right.
    all: by exists req'; eauto.
Qed.

Lemma filter_history fuel calls r0 outs r s :
  Brute.cursorOk r0 →
  run fuel calls r0 = Done (outs, r) →
  s ∈ brute_filter r →
  s ∈ brute_filter r0
  ∨ ∃ n early outs' r',
      calls !! n = Some (CallInputName (Some early))
      ∧ run fuel (take n calls) r0 = Done (outs', r')
      ∧ Name (SanitizeDNSRequest early) = s
      ∧ ((Brute.InputName_verdict r' (Some early)).2 = Brute.Accepted
         ∨ (Brute.InputName_verdict r' (Some early)).2 = Brute.BadRecords).
Proof.
  revert r0 outs. induction calls as [|[req|num|] calls IH]; intros r0 outs Hok Hrun Hin.
  - cbn in Hrun. simplify_eq. by left.
  - cbn [run InputName BruteManager_FQDNManager] in Hrun.
    destruct (IH _ _ (InputName_cursorOk r0 req Hok) Hrun Hin)
      as [Hin1|(n & early & outs' & r' & ? & ? & ? & ?)].
    + apply InputName_verdict_filter in Hin1 as [?|(req' & -> & ? & ?)]; [by left|].
      right. by exists 0%nat, req', [], r0.
    + right. by exists (S n), early, outs', r'.
  - cbn [run OutputNames BruteManager_FQDNManager] in Hrun.
    destruct (OutputNames_cursorOk r0 num Hok) as (names & r1 & Hout & Hok1 & _ & Hfilter).
    rewrite Hout in Hrun. cbn in Hrun.
    destruct (run fuel calls r1) as [[rest r2]| |] eqn:Hrest; simplify_eq/=.
    destruct (IH _ _ Hok1 Hrest Hin) as [Hin1|(n & early & outs' & r' & ? & Htake & ? & ?)].
    + left. by rewrite <- Hfilter.
    + right. exists (S n), early, (names :: outs'), r'. split_and!; [done| |done..].
      cbn [take run OutputNames BruteManager_FQDNManager]. rewrite Hout. cbn.
      by rewrite Htake.
  - cbn [run Stop BruteManager_FQDNManager] in Hrun.
    destruct (IH _ _ (New_cursorOk (brute_enum r0)) Hrun Hin)
      as [Hin1|(n & early & outs' & r' & ? & ? & ? & ?)].
    + cbn in Hin1. set_solver.
    + right. by exists (S n), early, outs', r'.
Qed.

(** C6, as amended.  [InputName] discards a request as a duplicate only
    if an earlier [InputName] call presented the same name to the filter
    for the first time; that call accepted the request or discarded it
    for its records. *)
Theorem duplicate_only_if_presented (e : Enumeration) (fuel : nat) (calls : list call)
    (outs : list (list DNSRequest)) (r : BruteManager) (req : DNSRequest) :
  run fuel calls (NewBruteManager e) = Done (outs, r) →
  (Brute.InputName_verdict r (Some req)).2 = Brute.DuplicateName →
  ∃ n early outs' r',
    calls !! n = Some (CallInputName (Some early))
    ∧ run fuel (take n calls) (NewBruteManager e) = Done (outs', r')
    ∧ Name (SanitizeDNSRequest early) = Name (SanitizeDNSRequest req)
    ∧ ((Brute.InputName_verdict r' (Some early)).2 = Brute.Accepted
       ∨ (Brute.InputName_verdict r' (Some early)).2 = Brute.BadRecords).
Proof.
  intros Hrun Hdup%verdict_duplicate.
  destruct (filter_history fuel calls _ _ _ _ (New_cursorOk e) Hrun Hdup) as [Hin|?]; [|done].
  cbn in Hin. set_solver.
Qed.

End BruteFilter.

(** ** The [AlterationsManager] *)

Section AlterationsFacts.

Context {sanitizer : Sanitizer} {engine : alts.Engine} {order : RangeOrder}.
Implicit Types (r : AlterationsManager) (num : Z).

Lemma queueAlts_yield cfg req names count out :
  Alterations.queueAlts cfg req names count out =
    (count + Z.of_nat (length (Alterations.yield cfg req names)),
     out ++ Alterations.yield cfg req names).
Proof.
  unfold Alterations.yield. revert count out.
  induction names as [|name names IH]; intros count out.
  - cbn. by rewrite Z.add_0_r, app_nil_r.
  - cbn [Alterations.queueAlts]. rewrite filter_cons.
    destruct (config.IsDomainInScope cfg name) eqn:Hscope; cbn [negb].
    + rewrite decide_True by done. rewrite IH. unfold queue.Append.
      rewrite fmap_cons, <- app_assoc. cbn [length app]. f_equal. lia.
    + rewrite decide_False by done. apply IH.
Qed.

Lemma generateAlts_empty r : inQueue r = [] → Alterations.generateAlts r = (0, r).
Proof. intros Hin. unfold Alterations.generateAlts. by rewrite Hin. Qed.

Lemma generateAlts_next r req q :
  inQueue r = req :: q →
  Alterations.generateAlts r =
    let names :=
      rangeOrder (Alterations.altNames (Config (alt_enum r)) (altState r) (Name req)) in
    let new := Alterations.yield (Config (alt_enum r)) req names in
    (Z.of_nat (length new),
     Alterations.withOutQueue (Alterations.withInQueue r q) (outQueue r ++ new)).
Proof.
  intros Hin. unfold Alterations.generateAlts. rewrite Hin. cbn.
  by rewrite queueAlts_yield.
Qed.


Lemma refill_unfold fuel r num :
  Alterations.refill fuel r num =
    if bool_decide (queue.Len (outQueue r) < num)
    then
      match fuel with
      | O => OutOfFuel
      | S fuel =>
          let '(c, r) := Alterations.generateAlts r in
          if bool_decide (c = 0) then Done r else Alterations.refill fuel r num
      end
    else Done r.
Proof. by destruct fuel. Qed.

Lemma generateAlts_frame r :
  let r' := (Alterations.generateAlts r).2 in
  alt_enum r' = alt_enum r
  ∧ altState r' = altState r
  ∧ inQueue r' `suffix_of` inQueue r.
Proof.
  destruct (inQueue r) as [|req q] eqn:Hin.
  - rewrite generateAlts_empty by done. cbn. by rewrite Hin.
  - rewrite (generateAlts_next r req q) by done. cbn. split_and!; [done..|].
    by apply suffix_cons_r.
Qed.

(** The refill loop ends within one call of [generateAlts] for every
    queued request and one more; when it ends below [num], its last call
    of [generateAlts] yielded nothing. *)
Lemma refill_result fuel r num :
  (length (inQueue r) < fuel)%nat →
  ∃ r',
    Alterations.refill fuel r num = Done r'
    ∧ alt_enum r' = alt_enum r
    ∧ altState r' = altState r
    ∧ inQueue r' `suffix_of` inQueue r
    ∧ (queue.Len (outQueue r') < num →
       ∃ rl,
         Alterations.generateAlts rl = (0, r')
         ∧ alt_enum rl = alt_enum r
         ∧ altState rl = altState r).
Proof.
  revert r. induction fuel as [|fuel IH]; intros r Hfuel; [lia|].
  rewrite refill_unfold. case_bool_decide as Hlen.
  2:{ exists r. split_and!; [done..|]. intros ?. lia. }
  destruct (Alterations.generateAlts r) as [c r1] eqn:Hgen.
  pose proof (generateAlts_frame r) as (Henum & Hstate & Hsuffix).
  rewrite Hgen in Henum, Hstate, Hsuffix. cbn [snd] in Henum, Hstate, Hsuffix.
  case_bool_decide as Hc.
  - subst c. exists r1. split_and!; [done..|]. intros _. by exists r.
  - destruct (inQueue r) as [|req q] eqn:Hin.
    { rewrite generateAlts_empty in Hgen by done. simplify_eq. }
    assert (Hq : inQueue r1 = q).
    { rewrite (generateAlts_next r req q) in Hgen by done. by simplify_eq/=. }
    destruct (IH r1) as (r' & -> & Henum' & Hstate' & Hsuffix' & Hlast).
    { rewrite Hq. cbn in Hfuel. lia. }
    exists r'. split_and!; [done|congruence|congruence|by etrans|].
    intros (rl & ? & ? & ?)%Hlast. exists rl. split_and!; congruence.
Qed.

Lemma drain_take q num i results :
  Alterations.drain q num i results =
    (results ++ take (Z.to_nat (num - i)) q, drop (Z.to_nat (num - i)) q).
Proof.
  revert i results. induction q as [|element q IH]; intros i results.
  - cbn. rewrite take_nil, drop_nil, app_nil_r. by case_bool_decide.
  - cbn [Alterations.drain]. case_bool_decide.
    + rewrite IH. replace (Z.to_nat (num - i)) with (S (Z.to_nat (num - (i + 1)))) by lia.
      cbn. by rewrite <- app_assoc.
    + replace (Z.to_nat (num - i)) with 0%nat by lia. cbn. by rewrite app_nil_r.
Qed.

(** [OutputNames] always returns, with the first [num] requests of the
    output queue after the refill. *)
Lemma OutputNames_drains r num :
  ∃ results r',
    Alterations.OutputNames r num = Done (results, r')
    ∧ (Z.of_nat (length results) ≤ Z.max 0 num).
Proof.
  unfold Alterations.OutputNames, Alterations.OutputNames_fuel.
  destruct (config.Alterations _); cbn [negb]; [|exists [], r; split; [done|cbn; lia]].
  destruct (refill_result (S (length (inQueue r))) r num) as (r1 & -> & _); [lia|].
  cbn. rewrite drain_take. eexists _, _. split; [done|].
  rewrite app_nil_l, length_take. lia.
Qed.


End AlterationsFacts.

(** ** The [GuessManager] *)

Section GuessFacts.

Context {sanitizer : Sanitizer} {order : RangeOrder}
        {M : Type} {model : alts.MarkovModel M}.
Implicit Types (r : GuessManager M) (m : M) (num : Z) (guesses : gset string).

Lemma topUp_unfold fuel m num guesses :
  Guess.topUp fuel m num guesses =
    if bool_decide (stringset.Len guesses < num)
    then
      match fuel with
      | O => OutOfFuel
      | S fuel =>
          let '(names, m) := alts.GenerateNames m num in
          Guess.topUp fuel m num (stringset.InsertMany guesses names)
      end
    else Done (guesses, m).
Proof. by destruct fuel. Qed.


(** Sampling is no training event, so the loop keeps the training count. *)
Lemma topUp_TotalTrainings fuel m num guesses guesses' m' :
  Guess.topUp fuel m num guesses = Done (guesses', m') →
  alts.TotalTrainings m' = alts.TotalTrainings m.
Proof.
  revert m guesses. induction fuel as [|fuel IH]; intros m guesses;
    rewrite topUp_unfold; case_bool_decide; try done; try by intros [= _ ->].
  pose proof (alts.GenerateNames_TotalTrainings m num) as Hsame.
  destruct (alts.GenerateNames m num) as [names m1]. cbn in Hsame.
  intros Htop%IH. congruence.
Qed.

(** When no sampling round brings a new name, the loop does not end. *)
Lemma topUp_stuck m num guesses :
  (∀ n, (alts.GenerateNames m n).2 = m
        ∧ list_to_set (alts.GenerateNames m n).1 ⊆ guesses) →
  stringset.Len guesses < num →
  ∀ fuel, Guess.topUp fuel m num guesses = OutOfFuel.
Proof.
  intros Hsame Hlen fuel. induction fuel as [|fuel IH];
    rewrite topUp_unfold, bool_decide_eq_true_2 by done; [done|].
  destruct (Hsame num) as [Hm Hnames].
  destruct (alts.GenerateNames m num) as [names m1]. cbn in Hm, Hnames. subst m1.
  unfold stringset.InsertMany.
  by rewrite (comm_L (∪)), (subseteq_union_1_L _ _ Hnames).
Qed.

Lemma collect_resolved cfg names num count results :
  Guess.collect cfg names num count results =
    results ++ take (Z.to_nat (num - count)) (Guess.resolved cfg names).
Proof.
  unfold Guess.resolved. revert count results.
  induction names as [|name names IH]; intros count results.
  - cbn. by rewrite take_nil, app_nil_r.
  - cbn [Guess.collect]. rewrite filter_cons. case_bool_decide as Hcount.
    { replace (Z.to_nat (num - count)) with 0%nat by lia. by rewrite take_0, app_nil_r. }
    destruct (bool_decide (config.WhichDomain cfg name = ""%string)
              || bool_decide (name = ""%string)) eqn:Hbad.
    + rewrite decide_False; [apply IH|].
      intros [Hdomain Hname].
      apply orb_true_iff in Hbad as [Hbad|Hbad]; apply bool_decide_eq_true_1 in Hbad; done.
    + apply orb_false_iff in Hbad as [?%bool_decide_eq_false_1 ?%bool_decide_eq_false_1].
      rewrite decide_True by done. rewrite IH, fmap_cons.
      replace (Z.to_nat (num - count)) with (S (Z.to_nat (num - (count + 1)))) by lia.
      cbn. by rewrite <- app_assoc.
Qed.


Lemma OutputNames_guard fuel r num :
  alts.TotalTrainings (markovModel r) < 50
  ∨ alts.TotalTrainings (markovModel r) ≤ ttLastOutput r →
  Guess.OutputNames fuel r num = Done ([], r).
Proof.
  intros Hguard. unfold Guess.OutputNames.
  destruct (config.Alterations _); cbn [negb]; [|done].
  destruct Hguard.
  - by rewrite (bool_decide_eq_true_2 (_ < 50)).
  - rewrite (bool_decide_eq_true_2 (_ ≤ _)) by done. by rewrite orb_true_r.
Qed.

(** The call after the guard: checkpoint, sampling, collection. *)
Lemma OutputNames_sample fuel r num :
  config.Alterations (Config (guess_enum r)) = true →
  50 ≤ alts.TotalTrainings (markovModel r) →
  ttLastOutput r < alts.TotalTrainings (markovModel r) →
  Guess.OutputNames fuel r num =
    let r1 := Guess.withLastOutput r (alts.TotalTrainings (markovModel r)) in
    let '(names, m) := alts.GenerateNames (markovModel r) (num * 2) in
    '(guesses, m) ← Guess.topUp fuel m num (stringset.New names);
    Done (Guess.collect (Config (guess_enum r)) (rangeOrder guesses) num 0 [],
          Guess.withModel r1 m).
Proof.
  intros Hflag Hcold Hstale. unfold Guess.OutputNames. rewrite Hflag. cbn [negb].
  rewrite (bool_decide_eq_false_2 (_ < 50)) by lia.
  rewrite (bool_decide_eq_false_2 (_ ≤ _)) by lia. done.
Qed.

(** What a call that returns has done: nothing, or a checkpoint and a
    collection from a set of sampled names. *)
Lemma OutputNames_Done fuel r num results r' :
  Guess.OutputNames fuel r num = Done (results, r') →
  (results = [] ∧ r' = r)
  ∨ (config.Alterations (Config (guess_enum r)) = true
     ∧ 50 ≤ alts.TotalTrainings (markovModel r)
     ∧ ttLastOutput r < alts.TotalTrainings (markovModel r)
     ∧ guess_enum r' = guess_enum r
     ∧ ttLastOutput r' = alts.TotalTrainings (markovModel r)
     ∧ alts.TotalTrainings (markovModel r') = alts.TotalTrainings (markovModel r)
     ∧ ∃ guesses,
         results = take (Z.to_nat num)
                     (Guess.resolved (Config (guess_enum r)) (rangeOrder guesses))).
Proof.
  destruct (config.Alterations (Config (guess_enum r))) eqn:Hflag.
  2:{ unfold Guess.OutputNames. rewrite Hflag. cbn. intros [= <- <-]. by left. }
  destruct (decide (alts.TotalTrainings (markovModel r) < 50
                    ∨ alts.TotalTrainings (markovModel r) ≤ ttLastOutput r)) as [Hguard|Hpass].
  { rewrite OutputNames_guard by done. intros [= <- <-]. by left. }
  rewrite OutputNames_sample by (done || lia). cbv zeta.
  pose proof (alts.GenerateNames_TotalTrainings (markovModel r) (num * 2)) as Hsame.
  destruct (alts.GenerateNames (markovModel r) (num * 2)) as [names m]. cbn in Hsame.
  destruct (Guess.topUp fuel m num (stringset.New names)) as [[guesses m']| |] eqn:Htop;
    cbn; [|done..].
  intros [= <- <-]. right. cbn. split_and!; [done|lia|lia|done|done| |].
  - apply topUp_TotalTrainings in Htop. congruence.
  - exists guesses. by rewrite collect_resolved, Z.sub_0_r.
Qed.

End GuessFacts.

(** ** The guards and the collection of the [GuessManager] *)

Section GuessGuards.

Context {sanitizer : Sanitizer} {order : RangeOrder}
        {M : Type} {model : alts.MarkovModel M}.
Implicit Types (r : GuessManager M) (num : Z).

(** C3.  [GuessManager.OutputNames] returns nothing, and changes nothing,
    when the model has fewer than 50 trainings or no more than at the
    last checkpoint.  With generation switched on and both guards passed,
    a call that returns has set the checkpoint to the training count that
    the model had before the sampling, so that every call that follows
    without a training in between returns nothing. *)
Theorem cold_start_and_stale_guard (fuel : nat) r num :
  (alts.TotalTrainings (markovModel r) < 50
   ∨ alts.TotalTrainings (markovModel r) ≤ ttLastOutput r →
   Guess.OutputNames fuel r num = Done ([], r))
  ∧ (∀ results r',
        config.Alterations (Config (guess_enum r)) = true →
        50 ≤ alts.TotalTrainings (markovModel r) →
        ttLastOutput r < alts.TotalTrainings (markovModel r) →
        Guess.OutputNames fuel r num = Done (results, r') →
        ttLastOutput r' = alts.TotalTrainings (markovModel r)
        ∧ ∀ fuel' num', Guess.OutputNames fuel' r' num' = Done ([], r')).
Proof.
  split; [apply OutputNames_guard|].
  intros results r' Hflag Hcold Hstale Hout.
  assert (Hlast : ttLastOutput r' = alts.TotalTrainings (markovModel r)).
  { rewrite OutputNames_sample in Hout by done. cbv zeta in Hout.
    destruct (alts.GenerateNames (markovModel r) (num * 2)) as [names m].
    destruct (Guess.topUp fuel m num (stringset.New names)) as [[guesses m']| |];
      cbn in Hout; [|done..].
    by injection Hout as [= _ <-]. }
  split; [done|].
  apply OutputNames_Done in Hout as [[_ ->]|(_ & _ & _ & _ & _ & Hsame & _)]; [lia|].
  intros fuel' num'. apply OutputNames_guard. right. lia.
Qed.


End GuessGuards.

(** ** The three managers behind the interface *)

Section Interface.

Context {sanitizer : Sanitizer} {engine : alts.Engine} {order : RangeOrder}
        {M : Type} {model : alts.MarkovModel M}.



(** What [Stop] restores: everything in the [BruteManager]; in the
    [AlterationsManager] everything but the two thresholds of the engine,
    which the constructor copies from the configuration and [Stop] does
    not; in the [GuessManager] the model and not the checkpoint. *)
Lemma Stop_restores :
  (∀ r : BruteManager, Stop r = NewBruteManager (brute_enum r))
  ∧ (∀ r : AlterationsManager,
        Stop r = Alterations.NewAlterationsManager (alt_enum r)
        ↔ alts.MinForWordFlip (alts.NewState (config.AltWordlist (Config (alt_enum r))))
            = config.MinForWordFlip (Config (alt_enum r))
          ∧ alts.EditDistance (alts.NewState (config.AltWordlist (Config (alt_enum r))))
            = config.EditDistance (Config (alt_enum r)))
  ∧ (∀ r : GuessManager M,
        Stop r = Guess.NewGuessManager (guess_enum r) ↔ ttLastOutput r = 0).
Proof.
  split_and!.
  - done.
  - intros r. cbn. unfold Alterations.Stop, Alterations.NewAlterationsManager.
    destruct (alts.NewState _) as [flip distance words]. cbn.
    split; [by intros [= -> ->]|by intros [-> ->]].
  - intros r. cbn. unfold Guess.Stop, Guess.NewGuessManager, Guess.withModel.
    split; [by intros [= ->]|by intros ->].
Qed.

End Interface.

(** ** The managers of the concrete enumeration *)

Section Examples.

#[local] Existing Instance Example.sanitizer.
#[local] Existing Instance Example.order.
#[local] Existing Instance Example.engine.
#[local] Existing Instance Example.model.

(** C1 on the word list [www], empty, [mail] and the requests [a] and
    [b], with batches of 1, 2 and 3 names. *)
Lemma expansion_complete_example :
  ∃ outs r',
    run 0 (CallOutputNames <$> [1; 2; 3])
      (foldl Brute.InputName (NewBruteManager Example.enum) [Some Example.a; Some Example.b])
    = Done (outs, r')
    ∧ length (concat outs) = 4%nat
    ∧ concat outs =
        [Brute.bruteRequest "www" Example.a; Brute.bruteRequest "mail" Example.a;
         Brute.bruteRequest "www" Example.b; Brute.bruteRequest "mail" Example.b].
Proof.
  destruct (expansion_complete Example.enum [Some Example.a; Some Example.b] [1; 2; 3] 0)
    as (outs & r' & Hrun & _ & Hwhole).
  - repeat constructor.
  - destruct Hwhole as (Hlen & Hconcat & _); [vm_compute; discriminate|].
    exists outs, r'. split_and!; [exact Hrun|exact Hlen|]. rewrite Hconcat.
    vm_compute. reflexivity.
Defined.

(** C7 at a cursor on the empty entry: the call returns the pairing with
    [mail], and does what the call with the index 2 does. *)
Lemma empty_words_skipped_example :
  (∃ r',
      Brute.OutputNames Example.atEmptyWord 1
      = Done (take 1 (Brute.pending Example.atEmptyWord), r')
      ∧ Brute.pending r' = drop 1 (Brute.pending Example.atEmptyWord))
  ∧ take 1 (Brute.pending Example.atEmptyWord) = [Brute.bruteRequest "mail" Example.a]
  ∧ Brute.OutputNames Example.atEmptyWord 1
    = Brute.OutputNames (Brute.withCursor Example.atEmptyWord (Some Example.a) 2) 1.
Proof.
  destruct (empty_words_skipped Example.atEmptyWord 1) as (Hcall & _ & Hskip).
  - split; [cbn; lia|done].
  - reflexivity.
  - split_and!; [exact Hcall|reflexivity|].
    apply (Hskip Example.a); [reflexivity|reflexivity|lia].
Defined.

(** C6 as stated fails: [a] arrives with an alias record and is
    discarded for it, after the filter has recorded the name; when [a]
    arrives again, it is discarded as a duplicate, and no call has ever
    queued it. *)
Lemma duplicate_never_queued :
  let calls := [CallInputName (Some Example.aliasA)] in
  ∃ r,
    run 0 calls (NewBruteManager Example.enum) = Done ([], r)
    ∧ (Brute.InputName_verdict r (Some Example.a)).2 = Brute.DuplicateName
    ∧ brute_queue r = []
    ∧ ¬ ∃ n early outs' r',
          calls !! n = Some (CallInputName (Some early))
          ∧ run 0 (take n calls) (NewBruteManager Example.enum) = Done (outs', r')
          ∧ Name (SanitizeDNSRequest early) = Name (SanitizeDNSRequest Example.a)
          ∧ (Brute.InputName_verdict r' (Some early)).2 = Brute.Accepted.
Proof.
  intros calls. eexists. split_and!; [vm_compute; reflexivity..|].
  intros (n & early & outs' & r' & Hcall & Hrun & _ & Hverdict).
  destruct n as [|n]; [|by destruct n].
  cbn in Hcall, Hrun. injection Hcall as <-. injection Hrun as _ <-.
  vm_compute in Hverdict. discriminate.
Qed.

(** C6, as amended, on the same calls. *)
Lemma duplicate_only_if_presented_example :
  ∃ n early outs' r',
    [CallInputName (Some Example.aliasA)] !! n = Some (CallInputName (Some early))
    ∧ run 0 (take n [CallInputName (Some Example.aliasA)]) (NewBruteManager Example.enum)
      = Done (outs', r')
    ∧ Name (SanitizeDNSRequest early) = Name (SanitizeDNSRequest Example.a)
    ∧ ((Brute.InputName_verdict r' (Some early)).2 = Brute.Accepted
       ∨ (Brute.InputName_verdict r' (Some early)).2 = Brute.BadRecords).
Proof.
  apply (duplicate_only_if_presented Example.enum 0 [CallInputName (Some Example.aliasA)] []
           (Brute.InputName (NewBruteManager Example.enum) (Some Example.aliasA))).
  - reflexivity.
  - vm_compute. reflexivity.
Defined.


(** C3 on a model with 50 trainings and no checkpoint yet. *)
Lemma cold_start_and_stale_guard_example :
  Guess.OutputNames 0 (Example.trained 49 0) 1 = Done ([], Example.trained 49 0)
  ∧ Guess.OutputNames 0 (Example.trained 50 0) 1
    = Done ([Guess.guessRequest "a.example.com" "example.com"], Example.trained 50 50)
  ∧ ttLastOutput (Example.trained 50 50) = 50
  ∧ ∀ fuel' num',
      Guess.OutputNames fuel' (Example.trained 50 50) num'
      = Done ([], Example.trained 50 50).
Proof.
  split.
  - apply (cold_start_and_stale_guard 0 (Example.trained 49 0) 1). left. reflexivity.
  - split; [vm_compute; reflexivity|].
    refine (proj2 (cold_start_and_stale_guard 0 (Example.trained 50 0) 1)
              [Guess.guessRequest "a.example.com" "example.com"]
              (Example.trained 50 50) _ _ _ _).
    + reflexivity.
    + vm_compute. discriminate.
    + reflexivity.
    + vm_compute. reflexivity.
Defined.



(** C5.  The sampling loop of [GuessManager.OutputNames] has no way out
    when the model has no new name to give: after 50 trainings with one
    name the model samples this name only, and a call for two names does
    not return, whatever fuel it is given. *)
Theorem sampling_loop_never_ends (fuel : nat) :
  let r := foldl Guess.InputName (Guess.NewGuessManager Example.enum)
             (replicate 50 (Some Example.a)) in
  alts.TotalTrainings (markovModel r) = 50
  ∧ Guess.OutputNames fuel r 2 = OutOfFuel.
Proof.
  intros r. assert (r = Example.trained 50 0) as -> by (vm_compute; reflexivity).
  split; [reflexivity|].
  rewrite OutputNames_sample; [|reflexivity|vm_compute; discriminate|reflexivity].
  cbv zeta. cbn [alts.GenerateNames Example.model markovModel Example.trained].
  rewrite topUp_stuck; [done| |vm_compute; reflexivity].
  intros n. split; [done|]. cbn [alts.GenerateNames Example.model fst].
  intros name Hname%elem_of_list_to_set%subseteq_take%elem_of_replicate_inv.
  subst name. apply elem_of_list_to_set. left.
Qed.

End Examples.

(** ** [Stop] and the constructors *)

Section StopFacts.

(** C2.  [Stop] does not bring every manager back to its initial state.
    The [AlterationsManager] is as new after [Stop] only if the
    thresholds with which the engine starts are those of the
    configuration, which the constructor copies into the engine and
    [Stop] does not.  The [GuessManager] is as new after [Stop] only if
    its checkpoint is 0, for [Stop] keeps the checkpoint.  The difference
    shows: a manager that has been trained 51 times, has returned a name
    and is stopped returns nothing after 50 further trainings, where a new
    manager returns a name. *)
Theorem stopped_manager_not_fresh :
  (∀ (engine : alts.Engine) (r : AlterationsManager),
      Alterations.Stop r = Alterations.NewAlterationsManager (alt_enum r)
      ↔ alts.MinForWordFlip (alts.NewState (config.AltWordlist (Config (alt_enum r))))
          = config.MinForWordFlip (Config (alt_enum r))
        ∧ alts.EditDistance (alts.NewState (config.AltWordlist (Config (alt_enum r))))
          = config.EditDistance (Config (alt_enum r)))
  ∧ (∀ (M : Type) (model : alts.MarkovModel M) (r : GuessManager M),
        Guess.Stop r = Guess.NewGuessManager (guess_enum r) ↔ ttLastOutput r = 0)
  ∧ (let before :=
       replicate 51 (CallInputName (Some Example.a)) ++ [CallOutputNames 1; CallStop] in
     let after := replicate 50 (CallInputName (Some Example.a)) ++ [CallOutputNames 1] in
     let new := Guess.NewGuessManager (model := Example.model) Example.enum in
     ∃ outs stopped r1 r2,
       run (manager := Example.guessManager) 0 before new = Done (outs, stopped)
       ∧ ttLastOutput stopped = 51
       ∧ run (manager := Example.guessManager) 0 after stopped = Done ([[]], r1)
       ∧ run (manager := Example.guessManager) 0 after new
         = Done ([[Guess.guessRequest "a.example.com" "example.com"]], r2)).
Proof.
  split_and!.
  - intros engine r.
    apply (Stop_restores (sanitizer := Example.sanitizer) (order := Example.order)
             (model := Example.model)).
  - intros M model r.
    apply (Stop_restores (sanitizer := Example.sanitizer) (engine := Example.engine)
             (order := Example.order)).
  - intros before after new. eexists _, _, _, _.
    split; [vm_compute; reflexivity|].
    split; [reflexivity|].
    split; vm_compute; reflexivity.
Qed.

End StopFacts.

(** * Further properties *)

(** ** Sequences of calls *)

Section Runs.

Context {T : Type} {manager : FQDNManager T}.

(** The calls of a sequence are made one after the other: a sequence in
    two parts gives the results of the first part, then those of the
    second part made on the manager that the first part leaves. *)
Lemma run_app (fuel : nat) (calls1 calls2 : list call) (r r1 : T)
    (outs1 : list (list DNSRequest)) :
  run fuel calls1 r = Done (outs1, r1) →
  run fuel (calls1 ++ calls2) r =
    match run fuel calls2 r1 with
    | Done (outs2, r2) => Done (outs1 ++ outs2, r2)
    | Panic p => Panic p
    | OutOfFuel => OutOfFuel
    end.
Proof.
  revert r outs1. induction calls1 as [|[req|num|] calls1 IH]; intros r outs1 Hrun.
  - cbn in Hrun. injection Hrun as <- <-. cbn.
    by destruct (run fuel calls2 r) as [[outs2 r2]| |].
  - cbn [app run] in *. by apply IH.
  - cbn [app run] in *.
    destruct (OutputNames fuel r num) as [[names r']| |]; cbn in *; [|done..].
    destruct (run fuel calls1 r') as [[rest r'']| |] eqn:Hrest; cbn in *; [|done..].
    injection Hrun as <- <-. rewrite (IH _ _ Hrest).
    by destruct (run fuel calls2 r'') as [[outs2 r2]| |].
  - cbn [app run] in *. by apply IH.
Qed.

End Runs.

(** ** Inputs between the outputs of the [BruteManager] *)

Section BruteHistory.

Context {sanitizer : Sanitizer}.
Implicit Types (r : BruteManager) (num : Z).

Lemma crossProduct_snoc wordlist bases base :
  Brute.crossProduct wordlist (bases ++ [base]) =
    Brute.crossProduct wordlist bases ++ Brute.expansions wordlist base.
Proof.
  unfold Brute.crossProduct. rewrite bind_app. f_equal. cbn. apply app_nil_r.
Qed.

(** What [InputName] adds to the traversal: the pairings of the request,
    behind all others, when the request is accepted, and nothing
    otherwise. *)
Lemma pending_InputName r req :
  Brute.pending (Brute.InputName r req) =
    Brute.pending r ++
    match req, (Brute.InputName_verdict r req).2 with
    | Some req, Brute.Accepted =>
        Brute.expansions (config.Wordlist (Config (brute_enum r))) (SanitizeDNSRequest req)
    | _, _ => []
    end.
Proof.
  unfold Brute.pending, Brute.InputName.
  destruct (InputName_verdict_cursor r req) as (-> & -> & ->).
  rewrite InputName_verdict_queue.
  destruct req as [req|]; [|by rewrite app_nil_r].
  destruct (Brute.InputName_verdict r (Some req)).2; try by rewrite app_nil_r.
  by rewrite crossProduct_snoc, app_assoc.
Qed.

Lemma accepted_InputName calls r req :
  History.accepted (CallInputName req :: calls) r =
    match req, (Brute.InputName_verdict r req).2 with
    | Some req, Brute.Accepted => [SanitizeDNSRequest req]
    | _, _ => []
    end ++ History.accepted calls (Brute.InputName r req).
Proof.
  cbn [History.accepted]. unfold Brute.InputName.
  destruct req as [req|].
  - destruct (Brute.InputName_verdict r (Some req)) as [r' v]. by destruct v.
  - by destruct (Brute.InputName_verdict r None) as [r' v].
Qed.

Lemma run_traversal fuel calls r :
  Brute.cursorOk r →
  (config.BruteForcing (Config (brute_enum r)) = false → Brute.pending r = []) →
  Forall (λ c, c ≠ CallStop) calls →
  ∃ outs r',
    run fuel calls r = Done (outs, r')
    ∧ concat outs ++ Brute.pending r' =
        Brute.pending r
        ++ Brute.crossProduct (config.Wordlist (Config (brute_enum r)))
             (History.accepted calls r).
Proof.
  intros Hok Hoff Hcalls. revert r Hok Hoff.
  induction Hcalls as [|[req|num|] calls Hcall _ IH]; intros r Hok Hoff; [| | |done].
  - exists [], r. split; [done|]. cbn. by rewrite app_nil_r.
  - cbn [run InputName BruteManager_FQDNManager].
    destruct (InputName_verdict_cursor r req) as (Henum & _).
    destruct (IH (Brute.InputName r req)) as (outs & r' & -> & Hconcat).
    { by apply InputName_cursorOk. }
    { unfold Brute.InputName at 1. rewrite Henum. intros Hflag.
      rewrite pending_InputName, (Hoff Hflag).
      destruct req as [req|]; [|done].
      destruct (Brute.InputName_verdict r (Some req)).2 eqn:Hverdict; try done.
      apply InputName_verdict_enabled in Hverdict. congruence. }
    exists outs, r'. split; [done|]. rewrite Hconcat, pending_InputName.
    unfold Brute.InputName at 1. rewrite Henum, accepted_InputName.
    rewrite <- app_assoc. f_equal.
    destruct req as [req|]; [|done].
    by destruct (Brute.InputName_verdict r (Some req)).2.
  - cbn [run OutputNames BruteManager_FQDNManager History.accepted].
    destruct (OutputNames_take r num Hok Hoff) as (r1 & -> & Hpend & Hok1 & Henum).
    destruct (IH r1 Hok1) as (outs & r' & Hrun & Hconcat).
    { rewrite Henum, Hpend. intros ->%Hoff. apply drop_nil. }
    cbn [mbind outcome_bind]. rewrite Hrun.
    exists (take (Z.to_nat num) (Brute.pending r) :: outs), r'. split; [done|].
    cbn [concat].
    rewrite <- app_assoc, Hconcat, Hpend, Henum, app_assoc. by rewrite take_drop.
Qed.

(** X1.  Inputs may arrive between the outputs.  For every sequence of
    [InputName] and [OutputNames] calls on a new manager, the requests
    returned so far followed by the pairings that are still pending are the
    cross product of the word list with the requests accepted so far, in
    the order of acceptance: nothing is returned twice and nothing is
    skipped. *)
Theorem interleaved_traversal (e : Enumeration) (fuel : nat) (calls : list call) :
  Forall (λ c, c ≠ CallStop) calls →
  ∃ outs r,
    run fuel calls (NewBruteManager e) = Done (outs, r)
    ∧ concat outs ++ Brute.pending r =
        Brute.crossProduct (config.Wordlist (Config e))
          (History.accepted calls (NewBruteManager e)).
Proof.
  intros Hcalls.
  destruct (run_traversal fuel calls (NewBruteManager e) (New_cursorOk e)) as
    (outs & r & Hrun & Hconcat); [done..|].
  by exists outs, r.
Qed.

End BruteHistory.

(** ** What the [BruteManager] queues *)

Section BruteQueue.

Context {sanitizer : Sanitizer}.
Implicit Types (r : BruteManager) (num count : Z) (results : list DNSRequest).

Lemma InputName_filter_mono r req :
  brute_filter r ⊆ brute_filter (Brute.InputName r req).
Proof.
  unfold Brute.InputName, Brute.InputName_verdict.
  destruct (wellFormed req) as [req'|]; [|done]. cbn.
  repeat (case_match; simplify_eq/=; try done); apply union_subseteq_r.
Qed.

(** An accepted request is new to the filter, is recorded in it, is in
    scope, and has no records or an address and no alias. *)
Lemma verdict_Accepted r req :
  (Brute.InputName_verdict r (Some req)).2 = Brute.Accepted →
  (Name (SanitizeDNSRequest req) ∉ brute_filter r)
  ∧ Name (SanitizeDNSRequest req) ∈ brute_filter (Brute.InputName r (Some req))
  ∧ History.validBase (brute_enum r) (SanitizeDNSRequest req).
Proof.
  unfold Brute.InputName, Brute.InputName_verdict, History.validBase.
  destruct (wellFormed (Some req)) as [req'|] eqn:Hwf; [|done].
  assert (req' = req) as ->.
  { cbn in Hwf. by case_match; simplify_eq. }
  cbn. destruct (config.IsDomainInScope _ _) eqn:Hscope; cbn [negb]; [|done].
  destruct (config.BruteForcing _); cbn [negb]; [|done].
  case_bool_decide as Hdup; [done|].
  destruct (bool_decide (0 < Z.of_nat (length (Records (SanitizeDNSRequest req)))))
    eqn:Hrecords; cbn [andb].
  - destruct (hasCNAMERecord _ _), (hasARecords _ _); cbn; try done.
    intros _. split_and!; [done|set_solver|done|by right].
  - apply bool_decide_eq_false_1 in Hrecords.
    intros _. cbn. split_and!; [done|set_solver|done|left].
    destruct (Records (SanitizeDNSRequest req)); [done|]. cbn in Hrecords. lia.
Qed.

Lemma accepted_fresh calls r :
  Brute.cursorOk r →
  Forall (λ c, c ≠ CallStop) calls →
  NoDup (Name <$> History.accepted calls r)
  ∧ ∀ x, x ∈ History.accepted calls r → Name x ∉ brute_filter r.
Proof.
  intros Hok Hcalls. revert r Hok.
  induction Hcalls as [|[req|num|] calls Hcall _ IH]; intros r Hok; [| | |done].
  - split; [constructor|]. by intros x ?%elem_of_nil.
  - rewrite accepted_InputName.
    destruct (IH (Brute.InputName r req) (InputName_cursorOk r req Hok)) as [Hnodup Hfresh].
    pose proof (InputName_filter_mono r req) as Hmono.
    assert (Hrest : ∀ x, x ∈ History.accepted calls (Brute.InputName r req) →
                         Name x ∉ brute_filter r).
    { intros x Hx Hin. by apply (Hfresh x Hx), Hmono. }
    destruct req as [req|]; [|by split].
    destruct (Brute.InputName_verdict r (Some req)).2 eqn:Hverdict; try by split.
    apply verdict_Accepted in Hverdict as (Hnew & Hrecorded & _).
    cbn [app fmap list_fmap]. split.
    + apply NoDup_cons. split; [|done].
      intros (x & Hname & Hx)%list_elem_of_fmap. apply (Hfresh x Hx). by rewrite <- Hname.
    + intros x [->|Hx]%elem_of_cons; [done|by apply Hrest].
  - cbn [History.accepted].
    destruct (OutputNames_cursorOk r num Hok) as (names & r1 & -> & Hok1 & _ & Hfilter).
    destruct (IH r1 Hok1) as [Hnodup Hfresh]. split; [done|].
    intros x Hx. rewrite <- Hfilter. by apply Hfresh.
Qed.

(** X2.  Between two [Stop]s no name is queued twice: the requests that a
    sequence of [InputName] and [OutputNames] calls on a new manager
    accepts have pairwise different names, also when a name arrives again
    after all its pairings have been returned. *)
Theorem accepted_names_distinct (e : Enumeration) (calls : list call) :
  Forall (λ c, c ≠ CallStop) calls →
  NoDup (Name <$> History.accepted calls (NewBruteManager e)).
Proof.
  intros Hcalls. by apply accepted_fresh; [apply New_cursorOk|].
Qed.

(** How a run of the loop ends: with the requested number of names, or
    with nothing left, neither in the cursor nor in the queue.  The
    requests that are left were there before. *)
Lemma loops_exit fuel :
  (∀ r num count results res r',
      Brute.outerLoop fuel r num count results = Done (res, r') →
      ∃ new,
        res = results ++ new
        ∧ (num ≤ count + Z.of_nat (length new)
           ∨ (curReq r' = None ∧ brute_queue r' = []))
        ∧ (option_list (curReq r') ++ brute_queue r')
            `suffix_of` (option_list (curReq r) ++ brute_queue r))
  ∧ (∀ r num count results res r',
        Brute.innerLoop fuel r num count results = Done (res, r') →
        ∃ new,
          res = results ++ new
          ∧ (num ≤ count + Z.of_nat (length new)
             ∨ (curReq r' = None ∧ brute_queue r' = []))
          ∧ (option_list (curReq r') ++ brute_queue r')
              `suffix_of` (option_list (curReq r) ++ brute_queue r)).
Proof.
  induction fuel as [|fuel [IHouter IHinner]]; [by split|].
  split; intros r num count results res r'.
  - rewrite outerLoop_S. destruct (curReq r) as [cur|] eqn:Hcur.
    { intros Hloop. destruct (IHinner _ _ _ _ _ _ Hloop) as (new & ? & ? & Hsuffix).
      exists new. by rewrite Hcur in Hsuffix. }
    destruct (brute_queue r) as [|element q] eqn:Hq; cbn [queue.Next].
    + intros [= <- <-]. exists []. rewrite app_nil_r, Hcur, Hq. split_and!; [done|by right|done].
    + intros Hloop. destruct (IHinner _ _ _ _ _ _ Hloop) as (new & ? & ? & Hsuffix).
      exists new. split_and!; [done..|]. by cbn in Hsuffix.
  - rewrite innerLoop_S. cbv zeta. case_bool_decide as Hcount.
    { intros [= <- <-]. exists []. rewrite app_nil_r. split_and!; [done|left; cbn; lia|done]. }
    case_bool_decide as Hlen.
    { intros Hloop. destruct (IHouter _ _ _ _ _ _ Hloop) as (new & ? & ? & Hsuffix).
      exists new. split_and!; [done..|]. cbn in Hsuffix.
      etrans; [exact Hsuffix|]. destruct (curReq r); [by apply suffix_cons_r|done]. }
    case_bool_decide; [done|].
    destruct (_ !! _) as [word|]; [|done]. cbn [curReq Brute.withCursor].
    case_bool_decide.
    + destruct (curReq r) as [cur|] eqn:Hcur; [|done].
      intros Hloop. destruct (IHinner _ _ _ _ _ _ Hloop) as (new & -> & Hexit & Hsuffix).
      exists (Brute.bruteRequest word cur :: new). rewrite <- app_assoc.
      split_and!; [done| |by cbn in Hsuffix].
      destruct Hexit as [?|?]; [left; cbn [length]; lia|by right].
    + intros Hloop. destruct (IHinner _ _ _ _ _ _ Hloop) as (new & ? & ? & Hsuffix).
      exists new. by cbn in Hsuffix.
Qed.

End BruteQueue.

(** ** Edge cases of the [BruteManager] *)

Section BruteEdges.

Context {sanitizer : Sanitizer}.
Implicit Types (r : BruteManager) (num : Z).

Lemma run_validBase fuel calls r :
  Brute.cursorOk r →
  Forall (History.validBase (brute_enum r)) (option_list (curReq r) ++ brute_queue r) →
  ∃ outs r',
    run fuel calls r = Done (outs, r')
    ∧ brute_enum r' = brute_enum r
    ∧ Forall (History.validBase (brute_enum r)) (option_list (curReq r') ++ brute_queue r').
Proof.
  revert r. induction calls as [|[req|num|] calls IH]; intros r Hok Hvalid.
  - by exists [], r.
  - cbn [run InputName BruteManager_FQDNManager].
    destruct (InputName_verdict_cursor r req) as (Henum & _ & Hcur).
    destruct (IH (Brute.InputName r req)) as (outs & r' & -> & Henum' & Hvalid').
    { by apply InputName_cursorOk. }
    { unfold Brute.InputName. rewrite Henum, Hcur, InputName_verdict_queue.
      destruct req as [req|]; [|done].
      destruct (Brute.InputName_verdict r (Some req)).2 eqn:Hverdict; try done.
      apply verdict_Accepted in Hverdict as (_ & _ & Hnew).
      rewrite app_assoc. apply Forall_app. split; [done|]. by constructor. }
    exists outs, r'. unfold Brute.InputName in Henum', Hvalid'.
    rewrite Henum in Henum', Hvalid'. done.
  - cbn [run OutputNames BruteManager_FQDNManager].
    destruct (OutputNames_cursorOk r num Hok) as (names & r1 & Hout & Hok1 & Henum & _).
    assert (Hsuffix : (option_list (curReq r1) ++ brute_queue r1)
                        `suffix_of` (option_list (curReq r) ++ brute_queue r)).
    { unfold Brute.OutputNames, Brute.OutputNames_fuel in Hout.
      destruct (negb _); [by simplify_eq|].
      by destruct (proj1 (loops_exit _) _ _ _ _ _ _ Hout) as (new & _ & _ & ?). }
    destruct Hsuffix as [gone Hgone]. rewrite Hgone in Hvalid.
    apply Forall_app in Hvalid as [_ Hvalid].
    destruct (IH r1 Hok1) as (outs & r' & Hrun & Henum' & Hvalid'); [by rewrite Henum|].
    rewrite Hout. cbn [mbind outcome_bind]. rewrite Hrun.
    exists (names :: outs), r'. rewrite Henum in Henum', Hvalid'. done.
  - cbn [run Stop BruteManager_FQDNManager].
    destruct (IH (Brute.Stop r)) as (outs & r' & -> & Henum' & Hvalid').
    { apply New_cursorOk. }
    { constructor. }
    by exists outs, r'.
Qed.

(** X3.  In every state that [InputName], [OutputNames] and [Stop] calls
    reach from a new manager, the request in the cursor and every queued
    request has a name in scope and, if it has records at all, an address
    record and no alias record. *)
Theorem queued_requests_valid (e : Enumeration) (fuel : nat) (calls : list call) :
  ∃ outs r,
    run fuel calls (NewBruteManager e) = Done (outs, r)
    ∧ Forall (History.validBase e) (option_list (curReq r) ++ brute_queue r).
Proof.
  destruct (run_validBase fuel calls (NewBruteManager e) (New_cursorOk e))
    as (outs & r & Hrun & _ & Hvalid); [constructor|].
  by exists outs, r.
Qed.

Lemma InputName_disabled r req :
  config.BruteForcing (Config (brute_enum r)) = false → Brute.InputName r req = r.
Proof.
  intros Hoff. unfold Brute.InputName, Brute.InputName_verdict.
  destruct (wellFormed req); [|done]. cbn. rewrite Hoff.
  by destruct (config.IsDomainInScope _ _).
Qed.

(** X4.  With brute forcing switched off the manager does nothing: after
    any sequence of calls it is as it was built (the filter has recorded no
    name), and every [OutputNames] call has returned nothing. *)
Theorem brute_disabled_silent (e : Enumeration) (fuel : nat) (calls : list call) :
  config.BruteForcing (Config e) = false →
  ∃ outs,
    run fuel calls (NewBruteManager e) = Done (outs, NewBruteManager e)
    ∧ Forall (λ names, names = []) outs.
Proof.
  intros Hoff. induction calls as [|[req|num|] calls (outs & IH & Hempty)].
  - by exists [].
  - exists outs. cbn [run InputName BruteManager_FQDNManager].
    by rewrite InputName_disabled.
  - exists ([] :: outs). cbn [run OutputNames BruteManager_FQDNManager].
    rewrite OutputNames_disabled by done. cbn [mbind outcome_bind]. rewrite IH.
    split; [done|by constructor].
  - by exists outs.
Qed.

(** X5.  A call of [OutputNames] for no names, or for a negative number
    of names, returns nothing and loses nothing: the pairings that were
    pending are still pending, although the call may have moved the next
    request from the queue into the cursor. *)
Theorem nonpositive_batch r num :
  Brute.cursorOk r →
  num ≤ 0 →
  ∃ r',
    Brute.OutputNames r num = Done ([], r')
    ∧ Brute.pending r' = Brute.pending r
    ∧ Brute.cursorOk r'
    ∧ brute_filter r' = brute_filter r.
Proof.
  intros Hok Hnum.
  destruct (config.BruteForcing (Config (brute_enum r))) eqn:Hflag.
  - destruct (OutputNames_enabled r num Hflag Hok) as (r' & Hout & Hpend & ? & _ & ?).
    replace (Z.to_nat (num - 0)) with 0%nat in * by lia.
    rewrite take_0 in Hout. rewrite drop_0 in Hpend. by exists r'.
  - rewrite OutputNames_disabled by done. by exists r.
Qed.

(** X6.  [Stop] makes the [BruteManager] start afresh: the calls after a
    [Stop] return what they return on a new manager, whatever calls came
    before the [Stop]. *)
Theorem stop_starts_afresh (e : Enumeration) (fuel : nat) (calls1 calls2 : list call) :
  ∃ outs1 r1 outs2 r2,
    run fuel calls1 (NewBruteManager e) = Done (outs1, r1)
    ∧ run fuel calls2 (NewBruteManager e) = Done (outs2, r2)
    ∧ run fuel (calls1 ++ CallStop :: calls2) (NewBruteManager e) = Done (outs1 ++ outs2, r2).
Proof.
  destruct (run_cursorOk fuel calls1 (NewBruteManager e) (New_cursorOk e))
    as (outs1 & r1 & Hrun1 & _ & Henum).
  destruct (run_cursorOk fuel calls2 (NewBruteManager e) (New_cursorOk e))
    as (outs2 & r2 & Hrun2 & _).
  exists outs1, r1, outs2, r2. split_and!; [done..|].
  rewrite (run_app fuel calls1 _ _ _ _ Hrun1).
  change (brute_enum (NewBruteManager e)) with e in Henum.
  cbn [run Stop BruteManager_FQDNManager]. by rewrite Stop_fresh, Henum, Hrun2.
Qed.

(** X7.  A call of [OutputNames] for more names than there are pairings
    pending returns all of them and leaves a drained manager: no request in
    the cursor, none in the queue, and the index at the start of the word
    list. *)
Theorem drained_manager r num :
  Brute.cursorOk r →
  config.BruteForcing (Config (brute_enum r)) = true →
  Z.of_nat (length (Brute.pending r)) < num →
  ∃ r',
    Brute.OutputNames r num = Done (Brute.pending r, r')
    ∧ curReq r' = None
    ∧ brute_queue r' = []
    ∧ wordlistIdx r' = 0.
Proof.
  intros Hok Hflag Hnum.
  destruct (OutputNames_enabled r num Hflag Hok) as (r' & Hout & _ & [_ Hzero] & _).
  rewrite app_nil_l, take_ge in Hout by lia.
  exists r'. split; [done|].
  unfold Brute.OutputNames, Brute.OutputNames_fuel in Hout. rewrite Hflag in Hout.
  destruct (proj1 (loops_exit _) _ _ _ _ _ _ Hout) as (new & Hnew & [Hfull|[Hcur Hq]] & _).
  - cbn in Hnew. subst new. lia.
  - split_and!; [done..|]. by apply Hzero.
Qed.

End BruteEdges.

(** ** What the [AlterationsManager] buffers *)

Section AlterationsBuffer.

Context {sanitizer : Sanitizer} {engine : alts.Engine} {order : RangeOrder}.
Implicit Types (r : AlterationsManager) (num : Z).

Lemma rangeOrder_NoDup (X : gset string) : NoDup (rangeOrder X).
Proof. rewrite rangeOrder_perm. apply NoDup_elements. Qed.

Lemma rangeOrder_elem_of (X : gset string) name : name ∈ rangeOrder X ↔ name ∈ X.
Proof. rewrite rangeOrder_perm. apply elem_of_elements. Qed.

Lemma yield_names cfg req names :
  Name <$> Alterations.yield cfg req names =
    filter (λ name, config.IsDomainInScope cfg name = true) names.
Proof.
  unfold Alterations.yield. rewrite <- list_fmap_compose.
  induction (filter _ names) as [|name kept IH]; [done|]. cbn. by rewrite IH.
Qed.

Lemma yield_Forall cfg req names :
  Forall (λ x, config.IsDomainInScope cfg (Name x) = true
               ∧ Name x ∈ names
               ∧ Domain x = Domain req
               ∧ Tag_ x = ALT
               ∧ Records x = [])
    (Alterations.yield cfg req names).
Proof.
  unfold Alterations.yield. apply Forall_fmap, Forall_forall.
  intros name [Hscope Hname]%list_elem_of_filter. done.
Qed.

(** X9.  One call of [generateAlts] appends to the output queue the
    alterations of the request at the head of the input queue, each name
    once, also when several rules give the same name: the appended requests
    have pairwise different names; each has the tag [ALT], the domain of
    the request and a name in scope that one of the rules gave; and every
    name in scope that a rule gave is among them. *)
Theorem alterations_of_one_request r req q :
  inQueue r = req :: q →
  ∃ new,
    Alterations.generateAlts r
    = (Z.of_nat (length new),
       Alterations.withOutQueue (Alterations.withInQueue r q) (outQueue r ++ new))
    ∧ NoDup (Name <$> new)
    ∧ Forall (λ x, config.IsDomainInScope (Config (alt_enum r)) (Name x) = true
                   ∧ Name x ∈ Alterations.altNames (Config (alt_enum r)) (altState r) (Name req)
                   ∧ Domain x = Domain req
                   ∧ Tag_ x = ALT
                   ∧ Records x = [])
        new
    ∧ ∀ name,
        name ∈ Alterations.altNames (Config (alt_enum r)) (altState r) (Name req) →
        config.IsDomainInScope (Config (alt_enum r)) name = true →
        name ∈ Name <$> new.
Proof.
  intros Hin. rewrite (generateAlts_next r req q Hin). cbv zeta.
  eexists. split; [done|]. split_and!.
  - rewrite yield_names. apply NoDup_filter, rangeOrder_NoDup.
  - eapply Forall_impl; [apply yield_Forall|]. cbn.
    intros x (? & ?%rangeOrder_elem_of & ? & ? & ?). done.
  - intros name Hname Hscope. rewrite yield_names.
    apply list_elem_of_filter. split; [done|]. by apply rangeOrder_elem_of.
Qed.

(** The refill loop takes requests from the head of the input queue and
    appends their alterations to the output queue, in this order; it takes
    none when the output queue is long enough. *)
Lemma refill_conserved fuel r num :
  (length (inQueue r) < fuel)%nat →
  ∃ r' consumed,
    Alterations.refill fuel r num = Done r'
    ∧ alt_enum r' = alt_enum r
    ∧ altState r' = altState r
    ∧ inQueue r = consumed ++ inQueue r'
    ∧ outQueue r' =
        outQueue r
        ++ (consumed ≫= λ req,
              Alterations.yield (Config (alt_enum r)) req
                (rangeOrder (Alterations.altNames (Config (alt_enum r)) (altState r)
                               (Name req))))
    ∧ (num ≤ queue.Len (outQueue r) → consumed = []).
Proof.
  revert r. induction fuel as [|fuel IH]; intros r Hfuel; [lia|].
  rewrite refill_unfold. case_bool_decide as Hlen.
  2:{ exists r, []. cbn. by rewrite app_nil_r. }
  destruct (inQueue r) as [|req q] eqn:Hin.
  { rewrite generateAlts_empty by done. rewrite bool_decide_eq_true_2 by done.
    exists r, []. rewrite Hin. cbn. rewrite app_nil_r. split_and!; [done..|lia]. }
  rewrite (generateAlts_next r req q Hin). cbv beta iota zeta.
  set (new := Alterations.yield _ _ _).
  set (r1 := Alterations.withOutQueue _ _).
  case_bool_decide as Hzero.
  - exists r1, [req]. cbn. rewrite app_nil_r. split_and!; [done..|lia].
  - destruct (IH r1) as (r' & consumed & -> & Henum & Hstate & Hin' & Hout & _).
    { cbn. cbn in Hfuel. lia. }
    exists r', (req :: consumed). cbn in Henum, Hstate, Hin', Hout.
    split_and!; [done..| | |lia].
    + by rewrite Hin'.
    + rewrite Hout, bind_cons. by rewrite <- app_assoc.
Qed.

Lemma OutputNames_queues r num results r' :
  config.Alterations (Config (alt_enum r)) = true →
  Alterations.OutputNames r num = Done (results, r') →
  ∃ consumed,
    inQueue r = consumed ++ inQueue r'
    ∧ results ++ outQueue r' =
        outQueue r
        ++ (consumed ≫= λ req,
              Alterations.yield (Config (alt_enum r)) req
                (rangeOrder (Alterations.altNames (Config (alt_enum r)) (altState r)
                               (Name req)))).
Proof.
  intros Hflag. unfold Alterations.OutputNames, Alterations.OutputNames_fuel.
  rewrite Hflag. cbn [negb].
  destruct (refill_conserved (S (length (inQueue r))) r num)
    as (r1 & consumed & -> & _ & _ & Hin & Hout & _); [lia|].
  cbn [mbind outcome_bind]. rewrite drain_take, Z.sub_0_r, app_nil_l.
  intros [= <- <-]. exists consumed. cbn [inQueue outQueue Alterations.withOutQueue].
  by rewrite take_drop.
Qed.


End AlterationsBuffer.

(** ** Sequences of calls on the [AlterationsManager] *)

Section AlterationsRuns.

Context {sanitizer : Sanitizer} {engine : alts.Engine} {order : RangeOrder}.
Implicit Types (r : AlterationsManager) (num : Z).

(** A property of the manager that every call keeps holds after every
    sequence of calls, and what it says about the results of one call holds
    of all results. *)
Lemma run_invariant (I : AlterationsManager → Prop) (P : list DNSRequest → Prop)
    (fuel : nat) (calls : list call) r :
  (∀ r req, I r → I (Alterations.InputName r req)) →
  (∀ r, I r → I (Alterations.Stop r)) →
  (∀ r num results r',
      I r → Alterations.OutputNames r num = Done (results, r') → I r' ∧ P results) →
  I r →
  ∃ outs r', run fuel calls r = Done (outs, r') ∧ I r' ∧ Forall P outs.
Proof.
  intros Hinput Hstop Houtput. revert r.
  induction calls as [|[req|num|] calls IH]; intros r Hr.
  - by exists [], r.
  - cbn [run InputName AlterationsManager_FQDNManager]. by apply IH, Hinput.
  - cbn [run OutputNames AlterationsManager_FQDNManager].
    destruct (OutputNames_drains r num) as (results & r1 & Hout & _).
    destruct (Houtput r num results r1 Hr Hout) as [Hr1 Hresults].
    destruct (IH r1 Hr1) as (outs & r' & Hrun & ? & ?).
    rewrite Hout. cbn [mbind outcome_bind]. rewrite Hrun.
    exists (results :: outs), r'. split_and!; [done..|by constructor].
  - cbn [run Stop AlterationsManager_FQDNManager]. by apply IH, Hstop.
Qed.

Lemma OutputNames_enum r num results r' :
  Alterations.OutputNames r num = Done (results, r') →
  alt_enum r' = alt_enum r ∧ altState r' = altState r.
Proof.
  unfold Alterations.OutputNames, Alterations.OutputNames_fuel.
  destruct (config.Alterations _); cbn [negb]; [|by intros [= <- <-]].
  destruct (refill_result (S (length (inQueue r))) r num)
    as (r1 & -> & Henum & Hstate & _); [lia|].
  cbn [mbind outcome_bind]. rewrite drain_take. by intros [= <- <-].
Qed.

Lemma InputName_queue r req :
  alt_enum (Alterations.InputName r req) = alt_enum r
  ∧ altState (Alterations.InputName r req) = altState r
  ∧ outQueue (Alterations.InputName r req) = outQueue r
  ∧ (inQueue (Alterations.InputName r req) = inQueue r
     ∨ ∃ req',
         req = Some req'
         ∧ inQueue (Alterations.InputName r req) = inQueue r ++ [SanitizeDNSRequest req']
         ∧ config.Alterations (Config (alt_enum r)) = true
         ∧ config.IsDomainInScope (Config (alt_enum r)) (Name (SanitizeDNSRequest req'))
           = true
         ∧ notBelowDomain (SanitizeDNSRequest req') = false).
Proof.
  unfold Alterations.InputName.
  destruct (wellFormed req) as [req'|] eqn:Hwf; [|by split_and!; [..|left]].
  assert (req = Some req') as ->.
  { destruct req as [req|]; [|done]. cbn in Hwf. by case_match; simplify_eq. }
  cbn. destruct (config.IsDomainInScope _ _) eqn:Hscope; cbn [negb];
    [|by split_and!; [..|left]].
  destruct (config.Alterations _) eqn:Hflag; cbn [negb]; [|by split_and!; [..|left]].
  destruct (notBelowDomain _) eqn:Hdepth; [by split_and!; [..|left]|].
  split_and!; [done..|]. right. by exists req'.
Qed.

(** X10.  Every request that the [AlterationsManager] returns, in any
    sequence of calls on a new manager, has a name in scope, the tag [ALT]
    and no records; and every request that waits in its input queue has a
    name in scope with more labels than its domain, so that the domain
    itself is never altered. *)
Theorem alterations_in_scope (e : Enumeration) (fuel : nat) (calls : list call) :
  ∃ outs r,
    run fuel calls (Alterations.NewAlterationsManager e) = Done (outs, r)
    ∧ Forall (Forall (λ x, config.IsDomainInScope (Config e) (Name x) = true
                           ∧ Tag_ x = ALT
                           ∧ Records x = [])) outs
    ∧ Forall (λ req, config.IsDomainInScope (Config e) (Name req) = true
                     ∧ (length (strings.Split (Domain req) "."%char)
                        < length (strings.Split (Name req) "."%char))%nat)
        (inQueue r).
Proof.
  set (Pout := λ x : DNSRequest,
         config.IsDomainInScope (Config e) (Name x) = true ∧ Tag_ x = ALT ∧ Records x = []).
  set (Pin := λ req : DNSRequest,
         config.IsDomainInScope (Config e) (Name req) = true
         ∧ (length (strings.Split (Domain req) "."%char)
            < length (strings.Split (Name req) "."%char))%nat).
  destruct (run_invariant
              (λ r, alt_enum r = e ∧ Forall Pin (inQueue r) ∧ Forall Pout (outQueue r))
              (Forall Pout) fuel calls (Alterations.NewAlterationsManager e))
    as (outs & r & Hrun & (_ & Hin & _) & Houts).
  - intros r req (Henum & Hin & Hout).
    destruct (InputName_queue r req) as (-> & _ & -> & [->|(req' & _ & -> & _ & ? & Hdepth)]);
      [done|].
    split_and!; [done| |done]. apply Forall_app. split; [done|]. constructor; [|done].
    unfold notBelowDomain in Hdepth. apply bool_decide_eq_false_1 in Hdepth.
    subst e. split; [done|lia].
  - intros r (Henum & _). split_and!; [done|constructor..].
  - intros r num results r' (Henum & Hin & Hout) Hcall.
    destruct (OutputNames_enum r num results r' Hcall) as [Henum' _].
    destruct (config.Alterations (Config (alt_enum r))) eqn:Hflag.
    + destruct (OutputNames_queues r num results r' Hflag Hcall)
        as (consumed & Hin0 & Hout0).
      assert (Hall : Forall Pout (results ++ outQueue r')).
      { rewrite Hout0. apply Forall_app. split; [done|].
        apply Forall_bind, Forall_forall. intros req _.
        eapply Forall_impl; [apply yield_Forall|]. cbn.
        intros x (? & _ & _ & ? & ?). subst e. done. }
      apply Forall_app in Hall as [? ?]. rewrite Hin0 in Hin.
      apply Forall_app in Hin as [_ ?]. split_and!; [congruence|done..].
    + unfold Alterations.OutputNames, Alterations.OutputNames_fuel in Hcall.
      rewrite Hflag in Hcall. injection Hcall as <- <-. split_and!; [done..|constructor].
  - split_and!; [done|constructor..].
  - by exists outs, r.
Qed.

Lemma altNames_rules_off cfg st name :
  config.FlipNumbers cfg = false →
  config.AddNumbers cfg = false →
  config.FlipWords cfg = false →
  config.AddWords cfg = false →
  config.EditDistance cfg ≤ 0 →
  Alterations.altNames cfg st name = (∅ : gset string).
Proof.
  intros H1 H2 H3 H4 H5. unfold Alterations.altNames.
  rewrite H1, H2, H3, H4, bool_decide_eq_false_2 by lia. done.
Qed.

Lemma rangeOrder_empty : rangeOrder (∅ : gset string) = [].
Proof.
  pose proof (rangeOrder_perm ∅) as Hperm. rewrite elements_empty in Hperm.
  by apply Permutation_nil_r in Hperm.
Qed.

(** X11.  With every alteration rule switched off (and no budget for the
    fuzzy search) the [AlterationsManager] returns nothing, whatever
    requests it is given: every [OutputNames] call of every sequence of
    calls on a new manager returns the empty result. *)
Theorem rules_off_silent (e : Enumeration) (fuel : nat) (calls : list call) :
  config.FlipNumbers (Config e) = false →
  config.AddNumbers (Config e) = false →
  config.FlipWords (Config e) = false →
  config.AddWords (Config e) = false →
  config.EditDistance (Config e) ≤ 0 →
  ∃ outs r,
    run fuel calls (Alterations.NewAlterationsManager e) = Done (outs, r)
    ∧ Forall (λ names, names = []) outs
    ∧ outQueue r = [].
Proof.
  intros H1 H2 H3 H4 H5.
  destruct (run_invariant (λ r, alt_enum r = e ∧ outQueue r = []) (λ names, names = [])
              fuel calls (Alterations.NewAlterationsManager e))
    as (outs & r & Hrun & (_ & Hout) & Houts).
  - intros r req (Henum & Hout). by destruct (InputName_queue r req) as (-> & _ & -> & _).
  - by intros r (Henum & _).
  - intros r num results r' (Henum & Hout) Hcall.
    destruct (OutputNames_enum r num results r' Hcall) as [Henum' _].
    destruct (config.Alterations (Config (alt_enum r))) eqn:Hflag.
    + destruct (OutputNames_queues r num results r' Hflag Hcall)
        as (consumed & _ & Hout0).
      assert (Hnone : consumed ≫= (λ req,
                Alterations.yield (Config (alt_enum r)) req
                  (rangeOrder (Alterations.altNames (Config (alt_enum r)) (altState r)
                                 (Name req)))) = []).
      { clear Hout0. induction consumed as [|req consumed IH]; [done|].
        rewrite bind_cons, IH, altNames_rules_off, rangeOrder_empty by (by subst e). done. }
      rewrite Hout, Hnone in Hout0. apply app_eq_nil in Hout0 as [-> ->].
      split_and!; [congruence|done..].
    + unfold Alterations.OutputNames, Alterations.OutputNames_fuel in Hcall.
      rewrite Hflag in Hcall. by injection Hcall as <- <-.
  - done.
  - by exists outs, r.
Qed.

(** X12.  With alterations switched off the [AlterationsManager] queues
    nothing and returns nothing: after every sequence of calls on a new
    manager both queues are empty, and every result is empty. *)
Theorem alterations_disabled_silent (e : Enumeration) (fuel : nat) (calls : list call) :
  config.Alterations (Config e) = false →
  ∃ outs r,
    run fuel calls (Alterations.NewAlterationsManager e) = Done (outs, r)
    ∧ Forall (λ names, names = []) outs
    ∧ inQueue r = []
    ∧ outQueue r = [].
Proof.
  intros Hoff.
  destruct (run_invariant (λ r, alt_enum r = e ∧ inQueue r = [] ∧ outQueue r = [])
              (λ names, names = []) fuel calls (Alterations.NewAlterationsManager e))
    as (outs & r & Hrun & (_ & Hin & Hout) & Houts).
  - intros r req (Henum & Hin & Hout).
    destruct (InputName_queue r req) as (-> & _ & -> & [->|(req' & _ & _ & Hflag & _)]);
      [done|]. subst e. congruence.
  - by intros r (Henum & _).
  - intros r num results r' (Henum & Hin & Hout) Hcall.
    unfold Alterations.OutputNames, Alterations.OutputNames_fuel in Hcall.
    subst e. rewrite Hoff in Hcall. by injection Hcall as <- <-.
  - done.
  - by exists outs, r.
Qed.

End AlterationsRuns.

(** ** Calls of the [GuessManager] *)

Section GuessCalls.

Context {sanitizer : Sanitizer} {order : RangeOrder}
        {M : Type} {model : alts.MarkovModel M}.
Implicit Types (r : GuessManager M) (num : Z).

Lemma resolved_names cfg names :
  Name <$> Guess.resolved cfg names =
    filter (λ name, config.WhichDomain cfg name ≠ ""%string ∧ name ≠ ""%string) names.
Proof.
  unfold Guess.resolved. rewrite <- list_fmap_compose.
  induction (filter _ names) as [|name kept IH]; [done|]. cbn. by rewrite IH.
Qed.

(** X13.  One call of [OutputNames] returns no name twice. *)
Theorem guesses_distinct (fuel : nat) r num results r' :
  Guess.OutputNames fuel r num = Done (results, r') →
  NoDup (Name <$> results).
Proof.
  intros [[-> _]|(_ & _ & _ & _ & _ & _ & guesses & ->)]%OutputNames_Done; [constructor|].
  rewrite fmap_take, resolved_names.
  eapply sublist_NoDup; [|apply sublist_take].
  apply NoDup_filter. rewrite rangeOrder_perm. apply NoDup_elements.
Qed.

Lemma OutputNames_first_sample (fuel : nat) r num :
  config.Alterations (Config (guess_enum r)) = true →
  50 ≤ alts.TotalTrainings (markovModel r) →
  ttLastOutput r < alts.TotalTrainings (markovModel r) →
  num ≤ stringset.Len (stringset.New (alts.GenerateNames (markovModel r) (num * 2)).1) →
  Guess.OutputNames fuel r num =
    Done (take (Z.to_nat num)
            (Guess.resolved (Config (guess_enum r))
               (rangeOrder (stringset.New (alts.GenerateNames (markovModel r) (num * 2)).1))),
          Guess.withModel
            (Guess.withLastOutput r (alts.TotalTrainings (markovModel r)))
            (alts.GenerateNames (markovModel r) (num * 2)).2).
Proof.
  intros Hflag Hcold Hstale Henough.
  rewrite OutputNames_sample by done. cbv zeta.
  destruct (alts.GenerateNames (markovModel r) (num * 2)) as [names m]. cbn [fst snd] in *.
  rewrite topUp_unfold, bool_decide_eq_false_2 by lia.
  cbn [mbind outcome_bind]. by rewrite collect_resolved, Z.sub_0_r, app_nil_l.
Qed.

(** X14.  When the first sample, of [2 * num] names, holds [num]
    different names, [OutputNames] returns without a further sampling
    round: of the sampled names, in the order of the set, the first [num]
    that resolve to a domain. *)
Theorem first_sample_suffices (fuel : nat) r num :
  config.Alterations (Config (guess_enum r)) = true →
  50 ≤ alts.TotalTrainings (markovModel r) →
  ttLastOutput r < alts.TotalTrainings (markovModel r) →
  num ≤ stringset.Len (stringset.New (alts.GenerateNames (markovModel r) (num * 2)).1) →
  ∃ r',
    Guess.OutputNames fuel r num =
      Done (take (Z.to_nat num)
              (Guess.resolved (Config (guess_enum r))
                 (rangeOrder
                    (stringset.New (alts.GenerateNames (markovModel r) (num * 2)).1))),
            r')
    ∧ markovModel r' = (alts.GenerateNames (markovModel r) (num * 2)).2
    ∧ ttLastOutput r' = alts.TotalTrainings (markovModel r).
Proof.
  intros Hflag Hcold Hstale Henough. eexists. split; [by apply OutputNames_first_sample|done].
Qed.

(** X15.  A call of [OutputNames] for no names, or for a negative number
    of names, returns nothing, and yet it moves the checkpoint when the
    guards let it pass: the calls that follow return nothing until the
    model is trained again. *)
Theorem nonpositive_guess_moves_checkpoint (fuel : nat) r num :
  config.Alterations (Config (guess_enum r)) = true →
  50 ≤ alts.TotalTrainings (markovModel r) →
  ttLastOutput r < alts.TotalTrainings (markovModel r) →
  num ≤ 0 →
  ∃ r',
    Guess.OutputNames fuel r num = Done ([], r')
    ∧ ttLastOutput r' = alts.TotalTrainings (markovModel r)
    ∧ ∀ fuel' num', Guess.OutputNames fuel' r' num' = Done ([], r').
Proof.
  intros Hflag Hcold Hstale Hnum.
  pose proof (OutputNames_first_sample fuel r num Hflag Hcold Hstale) as Hout.
  replace (Z.to_nat num) with 0%nat in Hout by lia. rewrite take_0 in Hout.
  eexists. split; [apply Hout; unfold stringset.Len; lia|]. split; [done|].
  intros fuel' num'. apply OutputNames_guard. right. cbn.
  rewrite alts.GenerateNames_TotalTrainings. lia.
Qed.

Lemma Guess_InputName_disabled r req :
  config.Alterations (Config (guess_enum r)) = false → Guess.InputName r req = r.
Proof.
  intros Hoff. unfold Guess.InputName.
  destruct (wellFormed req); [|done]. cbn. rewrite Hoff.
  by destruct (config.IsDomainInScope _ _).
Qed.

(** X16.  With alterations switched off the [GuessManager] learns
    nothing and returns nothing: after every sequence of calls it is as it
    was built, and every result is empty. *)
Theorem guess_disabled_silent (e : Enumeration) (fuel : nat) (calls : list call) :
  config.Alterations (Config e) = false →
  ∃ outs,
    run fuel calls (Guess.NewGuessManager e) = Done (outs, Guess.NewGuessManager e)
    ∧ Forall (λ names, names = []) outs.
Proof.
  intros Hoff. induction calls as [|[req|num|] calls (outs & IH & Hempty)].
  - by exists [].
  - exists outs. cbn [run InputName GuessManager_FQDNManager].
    by rewrite Guess_InputName_disabled.
  - exists ([] :: outs). cbn [run OutputNames GuessManager_FQDNManager].
    unfold Guess.OutputNames at 1. cbn [guess_enum Guess.NewGuessManager]. rewrite Hoff.
    cbn [negb mbind outcome_bind]. rewrite IH. split; [done|by constructor].
  - by exists outs.
Qed.

End GuessCalls.

(** ** The further properties on the concrete enumerations *)

Section MoreExamples.

#[local] Existing Instance Example.sanitizer.
#[local] Existing Instance Example.order.
#[local] Existing Instance Example.engine.
#[local] Existing Instance Example.model.

(** X1 with [b] arriving after the first pairing of [a] has been
    returned. *)
Lemma interleaved_traversal_example :
  let calls := [CallInputName (Some Example.a); CallOutputNames 1;
                CallInputName (Some Example.b); CallOutputNames 2] in
  ∃ outs r,
    run 0 calls (NewBruteManager Example.enum) = Done (outs, r)
    ∧ concat outs ++ Brute.pending r =
        Brute.crossProduct ["www"; ""; "mail"]%string
          (History.accepted calls (NewBruteManager Example.enum)).
Proof.
  intros calls. apply (interleaved_traversal Example.enum 0 calls).
  repeat first [apply Forall_nil_2 | apply Forall_cons_2; [discriminate|]].
Defined.

(** X2 with [a] arriving again after all its pairings have been
    returned. *)
Lemma accepted_names_distinct_example :
  NoDup (Name <$> History.accepted
                    [CallInputName (Some Example.a); CallOutputNames 5;
                     CallInputName (Some Example.a); CallInputName (Some Example.b)]
                    (NewBruteManager Example.enum)).
Proof.
  apply (accepted_names_distinct Example.enum).
  repeat first [apply Forall_nil_2 | apply Forall_cons_2; [discriminate|]].
Defined.

(** X4 on the enumeration with brute forcing switched off. *)
Lemma brute_disabled_silent_example :
  ∃ outs,
    run 0 [CallInputName (Some Example.a); CallOutputNames 3]
      (NewBruteManager Offline.enum)
    = Done (outs, NewBruteManager Offline.enum)
    ∧ Forall (λ names, names = []) outs.
Proof.
  apply (brute_disabled_silent Offline.enum 0). reflexivity.
Defined.

(** X5 at the cursor on the empty entry. *)
Lemma nonpositive_batch_example :
  ∃ r',
    Brute.OutputNames Example.atEmptyWord 0 = Done ([], r')
    ∧ Brute.pending r' = Brute.pending Example.atEmptyWord
    ∧ Brute.cursorOk r'
    ∧ brute_filter r' = brute_filter Example.atEmptyWord.
Proof.
  apply (nonpositive_batch Example.atEmptyWord 0).
  - split; [cbn; lia|done].
  - lia.
Defined.

(** X7 at the cursor on the empty entry, with three pairings pending. *)
Lemma drained_manager_example :
  ∃ r',
    Brute.OutputNames Example.atEmptyWord 10 = Done (Brute.pending Example.atEmptyWord, r')
    ∧ curReq r' = None
    ∧ brute_queue r' = []
    ∧ wordlistIdx r' = 0.
Proof.
  apply (drained_manager Example.atEmptyWord 10).
  - split; [cbn; lia|done].
  - reflexivity.
  - vm_compute. reflexivity.
Defined.

(** X11 on the enumeration of [Example], where every rule is off. *)
Lemma rules_off_silent_example :
  ∃ outs r,
    run 0 [CallInputName (Some Example.a); CallOutputNames 3]
      (Alterations.NewAlterationsManager Example.enum)
    = Done (outs, r)
    ∧ Forall (λ names, names = []) outs
    ∧ outQueue r = [].
Proof.
  apply (rules_off_silent Example.enum 0); [reflexivity..|]. cbn. lia.
Defined.

(** X12 and X16 on the enumeration with alterations switched off. *)
Lemma alterations_disabled_silent_example :
  ∃ outs r,
    run 0 [CallInputName (Some Example.a); CallOutputNames 3]
      (Alterations.NewAlterationsManager Offline.enum)
    = Done (outs, r)
    ∧ Forall (λ names, names = []) outs
    ∧ inQueue r = []
    ∧ outQueue r = [].
Proof.
  apply (alterations_disabled_silent Offline.enum 0). reflexivity.
Defined.

Lemma guess_disabled_silent_example :
  ∃ outs,
    run 0 [CallInputName (Some Example.a); CallOutputNames 3]
      (Guess.NewGuessManager Offline.enum)
    = Done (outs, Guess.NewGuessManager Offline.enum)
    ∧ Forall (λ names, names = []) outs.
Proof.
  apply (guess_disabled_silent Offline.enum 0). reflexivity.
Defined.

(** X13 and X14 on the model that samples a name outside the scope, the
    empty name and a name of the domain. *)
Lemma guesses_distinct_example :
  NoDup (Name <$> [Guess.guessRequest "a.example.com" "example.com"]).
Proof.
  apply (guesses_distinct 0 Example.mixed 2 _ (Guess.withLastOutput Example.mixed 52)).
  vm_compute. reflexivity.
Defined.

Lemma first_sample_suffices_example :
  ∃ r',
    Guess.OutputNames 0 Example.mixed 2 =
      Done (take 2 (Guess.resolved Example.cfg
                      (rangeOrder
                         (stringset.New
                            (alts.GenerateNames (markovModel Example.mixed) (2 * 2)).1))),
            r')
    ∧ markovModel r' = (alts.GenerateNames (markovModel Example.mixed) (2 * 2)).2
    ∧ ttLastOutput r' = alts.TotalTrainings (markovModel Example.mixed).
Proof.
  apply (first_sample_suffices 0 Example.mixed 2).
  - reflexivity.
  - vm_compute. discriminate.
  - reflexivity.
  - vm_compute. discriminate.
Defined.

(** X15 on the model with 50 trainings. *)
Lemma nonpositive_guess_moves_checkpoint_example :
  ∃ r',
    Guess.OutputNames 0 (Example.trained 50 0) 0 = Done ([], r')
    ∧ ttLastOutput r' = alts.TotalTrainings (markovModel (Example.trained 50 0))
    ∧ ∀ fuel' num', Guess.OutputNames fuel' r' num' = Done ([], r').
Proof.
  apply (nonpositive_guess_moves_checkpoint 0 (Example.trained 50 0) 0).
  - reflexivity.
  - vm_compute. discriminate.
  - reflexivity.
  - lia.
Defined.

End MoreExamples.

Section OverlapExamples.

#[local] Existing Instance Example.sanitizer.
#[local] Existing Instance Example.order.
#[local] Existing Instance Overlap.engine.

(** X9 where two rules give [1a.example.com] and a third rule a name
    outside the scope: three requests are appended. *)
Lemma alterations_of_one_request_example :
  let r := Alterations.InputName (Alterations.NewAlterationsManager Overlap.enum)
             (Some Example.a) in
  ∃ new,
    Alterations.generateAlts r
    = (Z.of_nat (length new),
       Alterations.withOutQueue (Alterations.withInQueue r []) (outQueue r ++ new))
    ∧ length new = 3%nat
    ∧ NoDup (Name <$> new).
Proof.
  intros r.
  destruct (alterations_of_one_request r Example.a []) as (new & Hgen & Hnodup & _).
  - vm_compute. reflexivity.
  - exists new. split_and!; [exact Hgen| |exact Hnodup].
    assert (Hcount : (Alterations.generateAlts r).1 = 3) by (vm_compute; reflexivity).
    rewrite Hgen in Hcount. cbn [fst] in Hcount. lia.
Defined.


End OverlapExamples.
